(** * update_SCCconfiguration: matching-and-merge engine

    A shallow embedding of [update_SCCconfiguration_v0.7.0_LB_2025-06-25.py].
    The script is a straight-line program over Python dictionaries, sets,
    lists of text lines and pandas tables.  The embedding follows it section
    by section:

    - text helpers ([strip], [split], [readlines]);
    - [parse_atlas_id] and [normalize_wavelength];
    - the authoritative map [channel_data] (an insertion-ordered dict);
    - the matching loop with its used-id set;
    - the row merger, the polarization deriver, the assembler and the
      cleanup pass, the latter two writing a file.

    Python values that the script handles are text, the integers 0 and 1 of
    the background-mode flag and "missing" ([None] in the tables extracted
    from the PDF, [NaN] in pandas tables); the script never tells the two
    missing markers apart ([pd.notna], [==], [to_csv] treat them alike), so
    the embedding has one.  Text is a sequence of characters, here bytes.

    Functions of Python and pandas that are not part of the script
    ([int], [float], [round], [to_csv], [read_csv]) are Section variables:
    every theorem holds whatever they compute. *)

From stdpp Require Import gmap strings list fin_maps pretty.
From Stdlib Require Import ZArith Ascii String.

Open Scope string_scope.
Set Default Proof Using "Type".

(** ** Exceptions and fallible computations *)

Inductive exn :=
  | IndexError
  | ValueError
  | KeyError (k : string)
  | OSError
  | ParserError.

Inductive result (A : Type) :=
  | Ok (a : A)
  | Raise (e : exn).
Arguments Ok {A} a.
Arguments Raise {A} e.

Global Instance result_ret : MRet result := λ A a, Ok a.

Global Instance result_bind : MBind result := λ A B f r,
  match r with
  | Ok a => f a
  | Raise e => Raise e
  end.

Global Instance result_fmap : FMap result := λ A B f r,
  match r with
  | Ok a => Ok (f a)
  | Raise e => Raise e
  end.

Global Instance exn_eq_dec : EqDecision exn.
Proof. solve_decision. Defined.

Global Instance result_eq_dec {A} `{EqDecision A} : EqDecision (result A).
Proof. solve_decision. Defined.

Definition is_ok {A} (r : result A) : bool :=
  match r with Ok _ => true | Raise _ => false end.

(** ** Text helpers *)

(** [str.isspace] on the ASCII range: tab, line feed, vertical tab, form
    feed, carriage return, the four separators 28..31 and the space. *)
Definition is_space (c : ascii) : bool :=
  let n := nat_of_ascii c in
  ((9 <=? n) && (n <=? 13) || (28 <=? n) && (n <=? 32))%nat.

Fixpoint lstrip (s : string) : string :=
  match s with
  | String c s' => if is_space c then lstrip s' else s
  | EmptyString => EmptyString
  end.

(** [rstrip] drops the trailing run of blanks: a character is kept when it
    is not blank or when something is kept after it. *)
Fixpoint rstrip (s : string) : string :=
  match s with
  | String c s' =>
      match rstrip s' with
      | EmptyString => if is_space c then EmptyString else String c EmptyString
      | t => String c t
      end
  | EmptyString => EmptyString
  end.

Definition strip (s : string) : string := rstrip (lstrip s).

(** [s.split(sep)] for a one-character separator: never empty, the last
    field is what follows the last separator. *)
Fixpoint split (sep : ascii) (s : string) : list string :=
  match s with
  | EmptyString => [EmptyString]
  | String c s' =>
      if decide (c = sep) then EmptyString :: split sep s'
      else match split sep s' with
           | f :: fs => String c f :: fs
           | [] => [String c EmptyString]
           end
  end.

Fixpoint join (sep : string) (l : list string) : string :=
  match l with
  | [] => EmptyString
  | [x] => x
  | x :: l' => x ++ sep ++ join sep l'
  end.

Definition concat_lines (l : list string) : string := foldr String.append EmptyString l.

(** [l.index(x)]: position of the first element equal to [x]. *)
Fixpoint list_index (x : string) (l : list string) : option nat :=
  match l with
  | [] => None
  | y :: l' => if decide (y = x) then Some 0 else S <$> list_index x l'
  end.

Definition index_of (x : string) (l : list string) : result nat :=
  match list_index x l with
  | Some i => Ok i
  | None => Raise ValueError
  end.

(** ** Cells *)

Inductive cell :=
  | NA               (* None or NaN *)
  | Str (s : string)
  | Int (z : Z).

Global Instance cell_eq_dec : EqDecision cell.
Proof. solve_decision. Defined.

Global Instance cell_countable : Countable cell.
Proof.
  refine (inj_countable'
    (λ c, match c with NA => inl () | Str s => inr (inl s) | Int z => inr (inr z) end)
    (λ x, match x with inl _ => NA | inr (inl s) => Str s | inr (inr z) => Int z end) _).
  by intros [].
Defined.

Definition notna (c : cell) : bool :=
  match c with NA => false | _ => true end.

(** A pandas Series and a Python dict with text keys. *)
Abbreviation Series := (gmap string cell).

(** [d.get(k, default)] *)
Definition dict_get {V} (d : gmap string V) (k : string) (default : V) : V :=
  match d !! k with
  | Some v => v
  | None => default
  end.

(** [d[k]] *)
Definition getitem {V} (d : gmap string V) (k : string) : result V :=
  match d !! k with
  | Some v => Ok v
  | None => Raise (KeyError k)
  end.

(** [str(x)] of a cell; [NaN] prints as nan. *)
Definition str_of_cell (c : cell) : string :=
  match c with
  | NA => "nan"
  | Str s => s
  | Int z => pretty z
  end.

Definition nl : string := String (ascii_of_nat 10) EmptyString.

(** ** Identifier parser (lines 41-49) *)

Record atlas_parts := {
  wavelength : string;
  range : string;
  scattering : string;
  mode : string;
  suffix : string
}.

(** [s[i]]: the one-character text at position [i], IndexError out of range. *)
Definition char_at (s : string) (i : nat) : result string :=
  match String.get i s with
  | Some c => Ok (String c EmptyString)
  | None => Raise IndexError
  end.

Definition parse_atlas_id (atlas_id : string) : result atlas_parts :=
  let w := substring 0 4 atlas_id in
  r ← char_at atlas_id 4;
  s ← char_at atlas_id 5;
  m ← char_at atlas_id 6;
  x ← (if decide (7 < String.length atlas_id)%nat then char_at atlas_id 7 else Ok "");
  Ok {| wavelength := w; range := r; scattering := s; mode := m; suffix := x |}.


(** ** Insertion-ordered dictionaries

    [channel_data] is iterated twice, in insertion order; assigning to a key
    that is present replaces the value and keeps the key's position. *)

Fixpoint od_get {V} (k : string) (d : list (string * V)) : option V :=
  match d with
  | [] => None
  | (k', v) :: d' => if decide (k' = k) then Some v else od_get k d'
  end.

Fixpoint od_set {V} (k : string) (v : V) (d : list (string * V)) : list (string * V) :=
  match d with
  | [] => [(k, v)]
  | (k', v') :: d' =>
      if decide (k' = k) then (k, v) :: d' else (k', v') :: od_set k v d'
  end.

(** [d[k].update(u)] when [k in d], nothing otherwise. *)
Fixpoint od_update (k : string) (u : Series) (d : list (string * Series))
    : list (string * Series) :=
  match d with
  | [] => []
  | (k', v') :: d' =>
      if decide (k' = k) then (k', u ∪ v') :: d' else (k', v') :: od_update k u d'
  end.

(** ** The authoritative map (lines 63-87)

    The two tables come out of the PDF as rows of text cells, [None] for an
    empty cell, already under the twelve and seven column names the script
    assigns. *)

Abbreviation pdf_row := (gmap string (option string)).

Definition cell_of (o : option string) : cell :=
  match o with
  | Some s => Str s
  | None => NA
  end.

(** [row.to_dict()] *)
Definition to_dict (row : pdf_row) : Series := cell_of <$> row.

Definition add_channel_row (channel_data : list (string * Series)) (row : pdf_row)
    : result (list (string * Series)) :=
  aid ← getitem row "ATLAS ID";
  match aid with
  | Some a =>
      if decide (strip a ≠ "ATLAS ID") then Ok (od_set a (to_dict row) channel_data)
      else Ok channel_data
  | None => Ok channel_data
  end.

Definition add_background_row (channel_data : list (string * Series)) (row : pdf_row)
    : result (list (string * Series)) :=
  aid ← getitem row "ATLAS ID";
  match aid with
  | Some a => Ok (od_update a (to_dict row) channel_data)
  | None => Ok channel_data
  end.

(** A [for] loop whose body may raise. *)
Fixpoint for_each {A S} (body : S → A → result S) (l : list A) (s : S) : result S :=
  match l with
  | [] => Ok s
  | a :: l' => s' ← body s a; for_each body l' s'
  end.

Definition channel_pass (channel_df : list pdf_row) : result (list (string * Series)) :=
  for_each add_channel_row channel_df [].

Definition build_channel_data (channel_df background_df : list pdf_row)
    : result (list (string * Series)) :=
  d ← channel_pass channel_df;
  for_each add_background_row background_df d.

(** The identifier under which a row of the channel table is stored, when
    line 82 lets it through. *)
Definition accepted_identifier (row : pdf_row) : option string :=
  match row !! "ATLAS ID" with
  | Some (Some a) => if decide (strip a ≠ "ATLAS ID") then Some a else None
  | _ => None
  end.

(** The elements of a list, each once, in the order of their first
    occurrence: the order in which a dict keeps keys that are assigned
    more than once. *)
Definition first_occurrences (l : list string) : list string :=
  foldl (λ acc a, if decide (a ∈ acc) then acc else (acc ++ [a])%list) [] l.

(** ** pandas tables built from dicts

    [pd.DataFrame(list of dicts)] has the union of the keys as columns and
    [NaN] where a dict lacks a key.  pandas orders the columns by first
    appearance; the script only tests membership in them and reorders by
    [hoi_columns] before writing, so the order kept here is immaterial. *)

Record DataFrame := {
  columns : list string;
  records : list Series
}.

Definition DataFrame_of_dicts (ds : list Series) : DataFrame :=
  {| columns := elements (⋃ (dom <$> ds) : gset string); records := ds |}.

Definition cell_at (r : Series) (c : string) : cell := dict_get r c NA.

(** [df[c]] *)
Definition column (df : DataFrame) (c : string) : result (list cell) :=
  if decide (c ∈ columns df) then Ok ((λ r, cell_at r c) <$> records df)
  else Raise (KeyError c).

(** The row as [iterrows] and [iloc] hand it out: one entry per column. *)
Definition as_row (cols : list string) (r : Series) : Series :=
  list_to_map ((λ c, (c, cell_at r c)) <$> cols).

Definition iterrows (df : DataFrame) : list Series :=
  as_row (columns df) <$> records df.

(** [df[mask]] *)
Fixpoint select {A} (mask : list bool) (l : list A) : list A :=
  match mask, l with
  | b :: mask', x :: l' => if b then x :: select mask' l' else select mask' l'
  | _, _ => []
  end.

(** ** The matching loop (lines 110-138) *)

Record match_state := {
  atlas_to_csv_id : gmap string cell;
  used_csv_ids : gset cell;
  log_lines : list string;
  matched_data : gmap cell Series
}.

Definition initial_state : match_state :=
  {| atlas_to_csv_id := ∅; used_csv_ids := ∅; log_lines := []; matched_data := ∅ |}.

Definition add_log (st : match_state) (line : string) : match_state :=
  {| atlas_to_csv_id := atlas_to_csv_id st;
     used_csv_ids := used_csv_ids st;
     log_lines := log_lines st ++ [line];
     matched_data := matched_data st |}.

Definition expected_mode (parts : atlas_parts) : string :=
  if decide (mode parts = "a") then "an" else "pc".

(** ** Tables parsed from text

    [read_csv] infers a type per column; a value is missing, text, an
    integer, a boolean or a float.  The floats are those of Python, a type
    the embedding leaves open. *)

Inductive value (float : Type) :=
  | VNaN
  | VStr (s : string)
  | VInt (z : Z)
  | VBool (b : bool)
  | VFloat (x : float).
Arguments VNaN {float}.
Arguments VStr {float} s.
Arguments VInt {float} z.
Arguments VBool {float} b.
Arguments VFloat {float} x.

Record parsed (float : Type) := {
  p_columns : list string;
  p_rows : list (list (value float))
}.
Arguments p_columns {float} _.
Arguments p_rows {float} _.

(** ** The data of a run *)

(** The existing document as the script keeps it after reading. *)
Record document := {
  hoi_start : nat;
  polar_start : nat;
  hoi_columns : list string;
  original_hoi_df : DataFrame;
  polar_columns : list string
}.

(** What the operating system does with the file operations of the
    cleanup pass: all succeed; the re-read of line 191 fails; the reopening
    for writing of line 202 fails; or the file is reopened, which empties
    it, and the write after the first [n] pieces fails. *)
Inductive io_behaviour :=
  | IoFine
  | RereadFails
  | ReopenFails
  | WriteFails (n : nat).

Inductive cleanup_outcome :=
  | Cleaned
  | Caught (e : exn)      (* reported by print("Post-cleanup error:", e) *)
  | Uncaught (e : exn).   (* outside the try block: the run stops *)

Record inputs := {
  channel_df : list pdf_row;
  background_df : list pdf_row;
  depol_date : cell;
  lines : list string
}.

Inductive message :=
  | PostCleanupError (e : exn)
  | Done
  | LogSaved.

Record outcome := {
  output_file : option string;
  log_file : option string;
  console : list message;
  status : result ()
}.

(** ** File detection (lines 18-32)

    [glob.glob] for a pattern with one star lists the names of the
    directory, in the order the system hands them out, that start with the
    text before the star and go on to end with the text after it; a name
    that starts with a dot is left out when the pattern does not. *)

Fixpoint after_prefix (p name : string) : option string :=
  match p, name with
  | EmptyString, _ => Some name
  | String a p', String b name' =>
      if decide (a = b) then after_prefix p' name' else None
  | String _ _, EmptyString => None
  end.

Fixpoint ends_with (suffix name : string) : bool :=
  bool_decide (name = suffix) ||
  match name with
  | String _ name' => ends_with suffix name'
  | EmptyString => false
  end.

Definition hidden (name : string) : bool :=
  match name with
  | String c _ => bool_decide (c = "."%char)
  | EmptyString => false
  end.

Definition glob_match (before after name : string) : bool :=
  match after_prefix before name with
  | Some rest => ends_with after rest && (negb (hidden name) || hidden before)
  | None => false
  end.

Definition glob (before after : string) (directory : list string) : list string :=
  filter (λ name, glob_match before after name = true) directory.

Inductive detection :=
  | Detected (PDF_FILE CSV_FILE OUTPUT_FILE LOG_FILE : string)
  | FileNotFoundError.

Definition autodetect (directory : list string) : detection :=
  let pdf_matches := glob "" ".pdf" directory in
  let csv_matches := glob "LidarConfiguration" ".csv" directory in
  match pdf_matches with
  | [] => FileNotFoundError
  | pdf :: _ =>
      match csv_matches with
      | [] => FileNotFoundError
      | [csv] => Detected pdf csv ("NEW_" ++ csv) "CSV_match.log"
      | _ :: _ :: _ => FileNotFoundError
      end
  end.

(** ** Reference readings of the library functions

    The theorems below hold for any [int], [float], [round], [to_csv] and
    [read_csv].  To run the script on concrete inputs this module gives one
    reading of each, exact on a fragment: ASCII text; decimal literals
    without exponent, read exactly; CSV text without quote characters, with
    distinct column names and no row longer than the header. *)

Module Reference.

Definition is_digit (c : ascii) : bool :=
  let n := nat_of_ascii c in ((48 <=? n) && (n <=? 57))%nat.

Definition digit (c : ascii) : Z := Z.of_nat (nat_of_ascii c) - 48.

(** Python's [int]: blanks around, a sign, digits, single underscores
    between digits. *)
Fixpoint py_digits (s : string) (acc : Z) (after_digit : bool) : option Z :=
  match s with
  | EmptyString => if after_digit then Some acc else None
  | String c s' =>
      if is_digit c then py_digits s' (10 * acc + digit c) true
      else if decide (c = "_"%char) then
        (if after_digit then py_digits s' acc false else None)
      else None
  end.

Definition signed {A} (neg : A → A) (f : string → option A) (s : string) : option A :=
  match s with
  | String "+" t => f t
  | String "-" t => neg <$> f t
  | _ => f s
  end.

Definition py_int (s : string) : option Z :=
  signed Z.opp (λ t, py_digits t 0 false) (strip s).

(** Plain digit strings. *)
Fixpoint digits (s : string) (acc : Z) : option Z :=
  match s with
  | EmptyString => Some acc
  | String c s' => if is_digit c then digits s' (10 * acc + digit c) else None
  end.

Definition number (s : string) : option Z :=
  match s with
  | EmptyString => None
  | _ => digits s 0
  end.

(** A decimal [(m, k)] stands for [m / 10^k]. *)
Definition decimal : Type := Z * nat.

Definition unsigned_decimal (s : string) : option decimal :=
  match split "." s with
  | [a] => (λ m, (m, 0%nat)) <$> number a
  | [a; b] =>
      match a, b with
      | EmptyString, EmptyString => None
      | _, _ =>
          m ← digits a 0;
          n ← digits b m;
          Some (n, String.length b)
      end
  | _ => None
  end.

Definition read_decimal (s : string) : option decimal :=
  signed (λ d : decimal, (- d.1, d.2)%Z) unsigned_decimal s.

(** [float(x)]; the missing value is folded into the failure of the
    rounding that follows. *)
Definition py_float (c : cell) : option decimal :=
  match c with
  | NA => None
  | Str s => read_decimal (strip s)
  | Int z => Some (z, 0%nat)
  end.

(** [int(round(x))]: to the nearest integer, ties to the even one. *)
Definition py_round (d : decimal) : option Z :=
  let den := (10 ^ Z.of_nat d.2)%Z in
  let q := (d.1 `div` den)%Z in
  let r := (d.1 `mod` den)%Z in
  Some (if (2 * r <? den)%Z then q
        else if (den <? 2 * r)%Z then (q + 1)%Z
        else if Z.even q then q else (q + 1)%Z).

(** [str(x)] of a float: no redundant zeros, at least one decimal. *)
Fixpoint trim_zeros (m : Z) (k : nat) : decimal :=
  match k with
  | O => (m, O)
  | S k' => if (m `mod` 10 =? 0)%Z then trim_zeros (m `div` 10)%Z k' else (m, k)
  end.

Fixpoint pad_zeros (n : nat) (s : string) : string :=
  match n with
  | O => s
  | S n' => if decide (String.length s < n)%nat then pad_zeros n' ("0" ++ s) else s
  end.

Definition float_str (d : decimal) : string :=
  let '(m, k) := trim_zeros d.1 d.2 in
  let den := (10 ^ Z.of_nat k)%Z in
  let a := (Z.abs m `div` den)%Z in
  let b := (Z.abs m `mod` den)%Z in
  (if (m <? 0)%Z then "-" else "") ++ pretty a ++ "." ++
  (match k with O => "0" | _ => pad_zeros k (pretty b) end).

(** *** Writing CSV *)

Definition quote_char : ascii := ascii_of_nat 34.

Definition needs_quotes (s : string) : bool :=
  existsb (λ c, bool_decide (c ∈ [","%char; quote_char; ascii_of_nat 10; ascii_of_nat 13]))
    (list_ascii_of_string s).

Fixpoint double_quotes (s : string) : string :=
  match s with
  | EmptyString => EmptyString
  | String c s' =>
      if decide (c = quote_char) then String c (String c (double_quotes s'))
      else String c (double_quotes s')
  end.

Definition quoted (s : string) : string :=
  String quote_char (double_quotes s ++ String quote_char EmptyString).

(** A column of integers and missing values is a float column. *)
Definition is_Int (c : cell) : bool := match c with Int _ => true | _ => false end.
Definition is_Str (c : cell) : bool := match c with Str _ => true | _ => false end.

Definition float_column (rows : list (list cell)) (j : nat) : bool :=
  let col := (λ row, default NA (row !! j)) <$> rows in
  existsb is_Int col && existsb (λ c, negb (notna c)) col && negb (existsb is_Str col).

Definition field (rows : list (list cell)) (j : nat) (c : cell) : string :=
  match c with
  | NA => ""
  | Str s => if needs_quotes s then quoted s else s
  | Int z => if float_column rows j then pretty z ++ ".0" else pretty z
  end.

Definition record_line (rows : list (list cell)) (row : list cell) : string :=
  match imap (field rows) row with
  | [EmptyString] => quoted ""
  | fields => join "," fields
  end ++ nl.

Definition to_csv (rows : list (list cell)) : string :=
  concat_lines (record_line rows <$> rows).

(** *** Reading CSV *)

Definition na_values : list string :=
  [""; "#N/A"; "#N/A N/A"; "#NA"; "-1.#IND"; "-1.#QNAN"; "-NaN"; "-nan";
   "1.#IND"; "1.#QNAN"; "<NA>"; "N/A"; "NA"; "NULL"; "NaN"; "None"; "n/a";
   "nan"; "null"].

Definition is_na (s : string) : bool := bool_decide (s ∈ na_values).

(** The integer and float conversions of the parser skip blanks around
    the number. *)
Definition csv_int (s : string) : option Z :=
  z ← signed Z.opp number (strip s);
  if ((- 2 ^ 63 <=? z) && (z <? 2 ^ 63))%Z then Some z else None.

Definition csv_float (s : string) : option decimal := read_decimal (strip s).

Definition csv_bool (s : string) : option bool :=
  if bool_decide (s ∈ ["True"; "TRUE"; "true"]) then Some true
  else if bool_decide (s ∈ ["False"; "FALSE"; "false"]) then Some false
  else None.

Definition all_present (f : string → bool) (col : list string) : bool :=
  forallb (λ s, is_na s || f s) col.

(** The type of a column is the first that fits all its cells: integers
    when nothing is missing, floats, booleans, else text. *)
Definition convert_column (col : list string) : list (value decimal) :=
  if forallb is_na col then (λ _, VNaN) <$> col
  else if forallb (λ s, bool_decide (is_Some (csv_int s))) col then
    (λ s, from_option VInt VNaN (csv_int s)) <$> col
  else if all_present (λ s, bool_decide (is_Some (csv_float s))) col then
    (λ s, if is_na s then VNaN else from_option VFloat VNaN (csv_float s)) <$> col
  else if all_present (λ s, bool_decide (is_Some (csv_bool s))) col then
    (λ s, if is_na s then VNaN else from_option VBool VNaN (csv_bool s)) <$> col
  else (λ s, if is_na s then VNaN else VStr s) <$> col.

Definition text_lines (text : string) : list string :=
  filter (λ l, l ≠ "") (split (ascii_of_nat 10) text).

Definition read_csv (text : string) : result (parsed decimal) :=
  match text_lines text with
  | [] => Raise ParserError
  | header :: data =>
      let cols := split "," header in
      let n := List.length cols in
      let rows := split "," <$> data in
      if forallb (λ row, (List.length row <=? n)%nat) rows then
        let column j := convert_column ((λ row, default "" (row !! j)) <$> rows) in
        let converted := column <$> seq 0 n in
        Ok {| p_columns := cols;
              p_rows := imap (λ i _, (λ col, default VNaN (col !! i)) <$> converted) rows |}
      else Raise ParserError
  end.

End Reference.

(** ** A calibration report and a configuration file

    Three channels in the configuration file; four identifiers in the
    report, after a repeated header row: the first has an empty G cell and
    no dead time, the second an empty H cell, the third finds no row and the
    fourth has no integer wavelength. *)

Module Sample.

Definition line (s : string) : string := s ++ nl.

Definition channel_row (aid dead_time g h : option string) : pdf_row :=
  list_to_map
    [("ATLAS ID", aid); ("SCC ID", Some "1");
     ("Minimum channel height", Some "100"); ("Maximum channel height", Some "20000");
     ("Dead time", dead_time); ("First signal rangebin", Some "3");
     ("Trigger delay", Some "0"); ("Emission Wavelength", Some "532");
     ("Interference filter center", Some "532"); ("Interference filter FWHM", Some "0.5");
     ("G", g); ("H", h)].

Definition background_row (aid mode : option string) : pdf_row :=
  list_to_map
    [("ATLAS ID", aid); ("SCC ID", Some "1");
     ("Background Low Bin", Some "10"); ("Background High Bin", Some "20");
     ("Background Mode", mode); ("Background Low", Some "0");
     ("Background High", Some "0")].

Definition report_channels : list pdf_row :=
  [ channel_row (Some "ATLAS ID") (Some "Dead time") (Some "G") (Some "H");
    channel_row (Some "0532xpa") None (Some "") (Some "0.5");
    channel_row (Some "0532xpp") (Some "4.0") (Some "1.5") (Some "");
    channel_row (Some "1064xpp") (Some "4.0") (Some "1.5") (Some "0.5");
    channel_row (Some "abcdxpa") (Some "4.0") (Some "1.5") (Some "0.5") ].

Definition report_backgrounds : list pdf_row :=
  [ background_row (Some "0532xpa") (Some "Pre-Trigger");
    background_row (Some "9999xpa") (Some "Pre-Trigger") ].

Definition hoi_section : list string :=
  [ line "HoiChannels";
    line "id,_detection_mode_id_id,if_center,dead_time,_background_mode_id_id";
    line "A12,an,531.98,3.5,1";
    line "007,pc,532,3.6,0";
    line "300,an,1064,3.7,0";
    line "" ].

Definition polar_section : list string :=
  [ line "PolarizationCrosstalkParameter";
    line "channel_id,g,h,measurement_date";
    line "A12,0.9,0.1,01/01/2020 00:00";
    line "" ].

Definition products_section : list string :=
  [ line "Products"; line "id,name"; line "1,elastic" ].

Definition configuration : list string :=
  (line "Lidar configuration" :: hoi_section ++ polar_section ++ products_section)%list.

Definition report (lines : list string) : inputs :=
  {| channel_df := report_channels;
     background_df := report_backgrounds;
     depol_date := Str "25/06/2025 00:00";
     lines := lines |}.

Definition inp : inputs := report configuration.

(** The three channel rows as the reader hands them to pandas, and the
    first three records of the report. *)
Definition hoi_row (id mode center dead_time flag : string) : Series :=
  list_to_map
    [("id", Str id); ("_detection_mode_id_id", Str mode); ("if_center", Str center);
     ("dead_time", Str dead_time); ("_background_mode_id_id", Str flag)].

Definition hoi_df : DataFrame :=
  DataFrame_of_dicts
    [ hoi_row "A12" "an" "531.98" "3.5" "1";
      hoi_row "007" "pc" "532" "3.6" "0";
      hoi_row "300" "an" "1064" "3.7" "0" ].

Definition record_1 : string * Series :=
  ("0532xpa", to_dict (channel_row (Some "0532xpa") None (Some "") (Some "0.5"))).
Definition record_2 : string * Series :=
  ("0532xpp", to_dict (channel_row (Some "0532xpp") (Some "4.0") (Some "1.5") (Some ""))).
Definition record_3 : string * Series :=
  ("1064xpp", to_dict (channel_row (Some "1064xpp") (Some "4.0") (Some "1.5") (Some "0.5"))).

Definition records : list (string * Series) := [record_1; record_2; record_3].

(** The third channel row as [iterrows] hands it out. *)
Definition row_300 : Series := hoi_row "300" "an" "1064" "3.7" "0".
Definition row_A12 : Series := hoi_row "A12" "an" "531.98" "3.5" "1".

(** A parsed polarization table with one row whose g is missing. *)
Definition parsed_rows : parsed Reference.decimal :=
  {| p_columns := ["channel_id"; "g"; "h"];
     p_rows := [ [VStr "A12"; VNaN; VFloat (5%Z, 1%nat)];
                 [VStr "007"; VFloat (15%Z, 1%nat); VNaN] ] |}.

(** The same file without its Products section. *)
Definition inp_no_products : inputs :=
  report (line "Lidar configuration" :: hoi_section ++ polar_section)%list.

(** The same file without its polarization section. *)
Definition inp_no_polar : inputs :=
  report (line "Lidar configuration" :: hoi_section ++ products_section)%list.

(** The same file with a comment block in front that happens to carry the
    polarization marker. *)
Definition inp_early_marker : inputs :=
  report (line "PolarizationCrosstalkParameter" :: line "see below" :: configuration).

(** The output file of the run on [inp]: as assembled, after the cleanup
    pass, and after a second cleanup pass. *)
Definition hoi_written : list string :=
  [ line "Lidar configuration";
    line "HoiChannels";
    line ("id,_detection_mode_id_id,if_center,dead_time,_background_mode_id_id," ++
          "_Minimum_channel_height_,_Maximum_channel_height_");
    line "A12,an,532,,0,100,20000";
    line "007,pc,532,4.0,1,100,20000";
    line "300,an,1064,3.7,0,,";
    line "" ].

Definition polar_written (rows : list string) : list string :=
  (line "PolarizationCrosstalkParameter" ::
   line "channel_id,g,h,measurement_date" :: rows ++ [line ""])%list.

Definition assembled : string :=
  concat_lines
    (hoi_written ++
     polar_written [line "A12,,0.5,25/06/2025 00:00"; line "007,1.5,,25/06/2025 00:00"] ++
     products_section).

Definition cleaned_once : string :=
  concat_lines
    (hoi_written ++ polar_written [line "007,1.5,,25/06/2025 00:00"] ++ products_section).


(** Three analog channels at 532 nm, and a second identifier that asks
    for one. *)
Definition analog_df : DataFrame :=
  DataFrame_of_dicts
    [ hoi_row "A" "an" "532" "3.5" "1";
      hoi_row "B" "an" "531.6" "3.6" "0";
      hoi_row "C" "an" "532.2" "3.7" "0" ].

Definition record_s : string * Series :=
  ("0532xsa", to_dict (channel_row (Some "0532xsa") (Some "4.0") (Some "1.5") (Some "0.5"))).

(** The report with a footnote in the identifier column of its channel
    table. *)
Definition inp_short_identifier : inputs :=
  {| channel_df :=
       (report_channels ++
        [channel_row (Some "Note") (Some "") (Some "") (Some "")])%list;
     background_df := report_backgrounds;
     depol_date := Str "25/06/2025 00:00";
     lines := configuration |}.

(** The configuration file with a channel section that has its header
    line and no row. *)
Definition inp_no_rows : inputs :=
  report
    (line "Lidar configuration" ::
     [ line "HoiChannels";
       line "id,_detection_mode_id_id,if_center,dead_time,_background_mode_id_id";
       line "" ] ++ polar_section ++ products_section)%list.

(** The configuration file with a polarization header that has no g. *)
Definition inp_no_g : inputs :=
  report
    (line "Lidar configuration" ::
     hoi_section ++
     [ line "PolarizationCrosstalkParameter";
       line "channel_id,h,measurement_date";
       line "" ] ++ products_section)%list.

(** A directory before the first run and after it. *)
Definition directory : list string :=
  ["report.pdf"; "LidarConfiguration_RALI.csv"; "notes.txt"].
Definition directory_after : list string :=
  ["CSV_match.log"; "report.pdf"; "NEW_LidarConfiguration_RALI.csv";
   "LidarConfiguration_RALI.csv"; "notes.txt"].

End Sample.

Section Script.

(** [int(s)] on text: [None] when it raises ValueError. *)
Variable py_int : string → option Z.
(** [float(x)], then [int(round(y))]: [None] when they raise. *)
Variable float : Type.
Variable py_float : cell → option float.
Variable py_round : float → option Z.

(** Lines 35-39. *)
Definition normalize_wavelength (w : cell) : option Z :=
  match py_float w with
  | Some x => py_round x
  | None => None
  end.

(** The invariant of the loop: every mapped id is in the used-id set, and
    no id is mapped twice. *)
Definition correspondence_ok (st : match_state) : Prop :=
  (∀ a i, atlas_to_csv_id st !! a = Some i → i ∈ used_csv_ids st) ∧
  (∀ a1 a2 i, atlas_to_csv_id st !! a1 = Some i →
              atlas_to_csv_id st !! a2 = Some i → a1 = a2).

(** The boolean index of lines 125-129 and the rows it selects. *)
Definition possible_matches (df : DataFrame) (used : gset cell)
    (match_mode : string) (match_wl : Z) : result (list Series) :=
  by_mode ← column df "_detection_mode_id_id";
  by_center ← column df "if_center";
  ids ← column df "id";
  let m1 := (λ c, bool_decide (c = Str match_mode)) <$> by_mode in
  let m2 := (λ x, bool_decide (normalize_wavelength x = Some match_wl)) <$> by_center in
  let m3 := (λ i, negb (bool_decide (i ∈ used))) <$> ids in
  Ok (select (zip_with andb (zip_with andb m1 m2) m3) (iterrows df)).

(** The candidate rows in the words of the specification: the mode is the
    expected one, the normalized filter centre is the expected wavelength,
    and the id has not been used. *)
Definition is_candidate (used : gset cell) (match_mode : string) (match_wl : Z)
    (r : Series) : Prop :=
  cell_at r "_detection_mode_id_id" = Str match_mode ∧
  normalize_wavelength (cell_at r "if_center") = Some match_wl ∧
  cell_at r "id" ∉ used.

Global Instance is_candidate_dec used match_mode match_wl r :
  Decision (is_candidate used match_mode match_wl r).
Proof. unfold is_candidate. apply _. Defined.

(** The state after a match with the row whose id is [id]. *)
Definition matched (st : match_state) (aid : string) (match_ : Series) (id : cell)
    : match_state :=
  {| atlas_to_csv_id := <[aid := id]> (atlas_to_csv_id st);
     used_csv_ids := {[id]} ∪ used_csv_ids st;
     log_lines := log_lines st ++
       ["Matched automatically: " ++ aid ++ " → CSV ID: " ++ str_of_cell id];
     matched_data := <[id := match_]> (matched_data st) |}.

(** One iteration of the loop over [channel_data.items()]. *)
Definition match_step (df : DataFrame) (st : match_state) (item : string * Series)
    : result match_state :=
  let '(aid, match_) := item in
  parts ← parse_atlas_id aid;
  match py_int (wavelength parts) with
  | None => Ok (add_log st ("Skipped invalid ATLAS ID (bad wavelength): " ++ aid))
  | Some match_wl =>
      let match_mode := expected_mode parts in
      found ← possible_matches df (used_csv_ids st) match_mode match_wl;
      match found with
      | row :: _ =>
          id ← getitem row "id";
          Ok (matched st aid match_ id)
      | [] => Ok (add_log st ("Not matched: " ++ aid))
      end
  end.

Definition matching_loop (df : DataFrame) (channel_data : list (string * Series))
    : result match_state :=
  for_each (match_step df) channel_data initial_state.

(** The line of the log one expects for an identifier, given the
    correspondence at the end of the loop. *)
Definition expected_log_line (st : match_state) (aid : string) : string :=
  match atlas_to_csv_id st !! aid with
  | Some id => "Matched automatically: " ++ aid ++ " → CSV ID: " ++ str_of_cell id
  | None =>
      match py_int (substring 0 4 aid) with
      | Some _ => "Not matched: " ++ aid
      | None => "Skipped invalid ATLAS ID (bad wavelength): " ++ aid
      end
  end.


(** ** pandas text output and input

    [to_csv values] is the text [df.to_csv(f, index=False, header=False,
    lineterminator="\n")] writes for a table with these values, row by
    row in column order.  [read_csv text] is the table pandas parses from
    [text], with a type inferred per column. *)

Variable to_csv : list (list cell) → string.
Variable read_csv : string → result (parsed float).
Variable float_str : float → string.

Abbreviation value := (value float).
Abbreviation parsed := (parsed float).

(** ** The existing document (lines 89-108) *)

(** The dict comprehension of line 93 keeps, for each marker, the index of
    the last line that strips to it. *)
Fixpoint section_index_from (name : string) (lines : list string) (i : nat)
    (found : option nat) : option nat :=
  match lines with
  | [] => found
  | line :: rest =>
      section_index_from name rest (S i)
        (if decide (strip line = name) then Some i else found)
  end.

Definition section_index (name : string) (lines : list string) : option nat :=
  section_index_from name lines 0 None.

(** [l[i]] *)
Definition list_getitem {A} (l : list A) (i : nat) : result A :=
  match l !! i with
  | Some x => Ok x
  | None => Raise IndexError
  end.

(** [l[start:stop]] for a start that is not negative; a negative stop
    counts from the end. *)
Definition py_slice {A} (start : nat) (stop : Z) (l : list A) : list A :=
  let n := Z.of_nat (List.length l) in
  let stop' := if (stop <? 0)%Z then Z.max 0 (n + stop) else stop in
  take (Z.to_nat stop' - start) (drop start l).

(** [dict(pairs)]: a later pair replaces an earlier one with the same key. *)
Definition py_dict (pairs : list (string * cell)) : Series :=
  foldl (λ d kv, <[kv.1 := kv.2]> d) ∅ pairs.

Definition header_columns (line : string) : list string :=
  strip <$> split "," (strip line).

(** A column name that a header line can carry as it is: no blank at
    either end and no comma. *)
Definition clean_column (c : string) : Prop :=
  lstrip c = c ∧ rstrip c = c ∧ Forall (λ ch, ch ≠ ","%char) (list_ascii_of_string c).

Definition data_rows (cols : list string) (data_lines : list string) : list Series :=
  (λ line, py_dict (zip cols (Str <$> split "," (strip line)))) <$>
    filter (λ line, strip line ≠ "") data_lines.


Definition read_document (lines : list string) : result document :=
  match section_index "HoiChannels" lines with
  | None => Raise ValueError
  | Some hs =>
      match section_index "PolarizationCrosstalkParameter" lines with
      | None => Raise ValueError
      | Some ps =>
          hoi_header ← list_getitem lines (hs + 1);
          let hoi_data_lines := py_slice (hs + 2) (Z.of_nat ps - 1) lines in
          polar_header ← list_getitem lines (ps + 1);
          Ok {| hoi_start := hs;
                polar_start := ps;
                hoi_columns := header_columns hoi_header;
                original_hoi_df :=
                  DataFrame_of_dicts (data_rows (header_columns hoi_header) hoi_data_lines);
                polar_columns := header_columns polar_header |}
      end
  end.

(** ** The row merger (lines 140-161) *)

(** Lines 146-155: the assignments to a matched row, in order. *)
Definition merge_fields (match_ row : Series) : Series :=
  let row := <["if_center" :=
    dict_get match_ "Interference filter center" (dict_get row "if_center" (Str ""))]> row in
  let row := <["if_fwhm" :=
    dict_get match_ "Interference filter FWHM" (dict_get row "if_fwhm" (Str ""))]> row in
  let row := <["emission_wavelength" :=
    dict_get match_ "Emission Wavelength" (dict_get row "emission_wavelength" (Str ""))]> row in
  let row := <["dead_time" :=
    dict_get match_ "Dead time" (dict_get row "dead_time" (Str ""))]> row in
  let row := <["first_signal_rangebin" :=
    dict_get match_ "First signal rangebin" (dict_get row "first_signal_rangebin" (Str ""))]> row in
  let row := <["trigger_delay" :=
    dict_get match_ "Trigger delay" (dict_get row "trigger_delay" (Str ""))]> row in
  let row := <["_background_mode_id_id" :=
    if decide (match_ !! "Background Mode" = Some (Str "Pre-Trigger"))
    then Int 0 else Int 1]> row in
  let row := <["_Minimum_channel_height_" :=
    dict_get match_ "Minimum channel height" (Str "")]> row in
  <["_Maximum_channel_height_" := dict_get match_ "Maximum channel height" (Str "")]> row.

Definition update_row (matched_data : gmap cell Series) (row : Series) : result Series :=
  cid ← getitem row "id";
  match matched_data !! cid with
  | Some match_ => Ok (merge_fields match_ row)
  | None => Ok row
  end.

(** The fields the merge is meant to touch, with the key of the
    authoritative record each is taken from. *)
Definition overwritten_fields : list (string * string) :=
  [("if_center", "Interference filter center");
   ("if_fwhm", "Interference filter FWHM");
   ("emission_wavelength", "Emission Wavelength");
   ("dead_time", "Dead time");
   ("first_signal_rangebin", "First signal rangebin");
   ("trigger_delay", "Trigger delay")].

Definition height_fields : list (string * string) :=
  [("_Minimum_channel_height_", "Minimum channel height");
   ("_Maximum_channel_height_", "Maximum channel height")].

Definition designated_fields : list string :=
  (overwritten_fields.*1 ++ ["_background_mode_id_id"] ++ height_fields.*1)%list.

Definition updated_rows (matched_data : gmap cell Series) (df : DataFrame)
    : result (list Series) :=
  for_each (λ acc row, row' ← update_row matched_data row; Ok (acc ++ [row'])%list)
    (iterrows df) [].

Definition extend_columns (hoi_columns : list string) : list string :=
  if decide ("_Minimum_channel_height_" ∈ hoi_columns) then hoi_columns
  else (hoi_columns ++ ["_Minimum_channel_height_"; "_Maximum_channel_height_"])%list.

(** [pd.DataFrame(rows).reindex(columns=cols)], as values. *)
Definition reindex (cols : list string) (rows : list Series) : list (list cell) :=
  (λ r, (λ c, cell_at r c) <$> cols) <$> rows.

(** ** The polarization section (lines 163-175) *)

Definition polar_entry (polar_columns : list string) (cid g h depol_date : cell) : Series :=
  let entry : Series := list_to_map ((λ c, (c, Str "")) <$> polar_columns) in
  let entry := <["channel_id" := cid]> entry in
  let entry := <["g" := g]> entry in
  let entry := <["h" := h]> entry in
  <["measurement_date" := depol_date]> entry.

Fixpoint polar_updates (channel_data : list (string * Series))
    (atlas_to_csv_id : gmap string cell) (polar_columns : list string)
    (depol_date : cell) : list Series :=
  match channel_data with
  | [] => []
  | (aid, match_) :: rest =>
      let more := polar_updates rest atlas_to_csv_id polar_columns depol_date in
      match atlas_to_csv_id !! aid with
      | Some cid =>
          if notna (dict_get match_ "G" NA) && notna (dict_get match_ "H" NA)
          then polar_entry polar_columns cid (dict_get match_ "G" NA)
                 (dict_get match_ "H" NA) depol_date :: more
          else more
      | None => more
      end
  end.

(** The records that yield a polarization row, in the words of the
    specification: matched, with G and H not missing. *)
Definition has_calibration (atlas_to_csv_id : gmap string cell)
    (item : string * Series) : Prop :=
  is_Some (atlas_to_csv_id !! item.1) ∧
  notna (dict_get item.2 "G" NA) = true ∧
  notna (dict_get item.2 "H" NA) = true.

Global Instance has_calibration_dec atlas_to_csv_id item :
  Decision (has_calibration atlas_to_csv_id item).
Proof. unfold has_calibration. apply _. Defined.

(** The cell of a derived row under the column [c]. *)
Definition polar_cell (cid g h depol_date : cell) (c : string) : cell :=
  if decide (c = "measurement_date") then depol_date
  else if decide (c = "h") then h
  else if decide (c = "g") then g
  else if decide (c = "channel_id") then cid
  else Str "".

(** Lines 174-175. *)
Definition polar_df_clean (polar_columns : list string) (updates : list Series)
    : result (list Series) :=
  let df := {| columns := polar_columns; records := updates |} in
  g ← column df "g";
  h ← column df "h";
  Ok (select (zip_with andb (notna <$> g) (notna <$> h)) (iterrows df)).

(** ** Writing the output (lines 177-188)

    The file is opened for writing, which creates or empties it, and
    receives the pieces in order; [lines.index] is evaluated when the last
    piece is built, after the others have been written. *)

Definition products_line : string := "Products" ++ nl.
Definition polar_line : string := "PolarizationCrosstalkParameter" ++ nl.

Definition assemble (lines : list string) (hoi_start : nat)
    (hoi_columns polar_columns : list string)
    (updated_hoi_df polar_clean : list (list cell)) : string * result () :=
  let written :=
    concat_lines (take (hoi_start + 1) lines) ++
    (join "," hoi_columns ++ nl) ++
    to_csv updated_hoi_df ++
    nl ++
    polar_line ++
    (join "," polar_columns ++ nl) ++
    to_csv polar_clean ++
    nl ++
    products_line in
  match index_of products_line lines with
  | Ok i => (written ++ concat_lines (drop (i + 1) lines), Ok ())
  | Raise e => (written, Raise e)
  end.

(** ** The cleanup pass (lines 190-209) *)

(** Reading a text file: [\r\n] and [\r] arrive as [\n], and a line ends
    after each [\n]. *)
Fixpoint translate_newlines (s : string) : string :=
  match s with
  | EmptyString => EmptyString
  | String c s' =>
      if decide (c = ascii_of_nat 13) then
        String (ascii_of_nat 10)
          (match s' with
           | String c' s'' =>
               if decide (c' = ascii_of_nat 10) then translate_newlines s''
               else translate_newlines s'
           | EmptyString => EmptyString
           end)
      else String c (translate_newlines s')
  end.

Fixpoint split_lines (s : string) : list string :=
  match s with
  | EmptyString => []
  | String c s' =>
      if decide (c = ascii_of_nat 10) then String c EmptyString :: split_lines s'
      else match split_lines s' with
           | line :: rest => String c line :: rest
           | [] => [String c EmptyString]
           end
  end.

Definition readlines (content : string) : list string :=
  split_lines (translate_newlines content).



(** [str(v)] as [astype(str)] applies it. *)
Definition astype_str (v : value) : string :=
  match v with
  | VNaN => "nan"
  | VStr s => s
  | VInt z => pretty z
  | VBool b => if b then "True" else "False"
  | VFloat x => float_str x
  end.

Definition value_notna (v : value) : bool :=
  match v with VNaN => false | _ => true end.

(** [df.fillna("").astype(str)] on one value. *)
Definition fillna_str (v : value) : cell :=
  match v with
  | VNaN => Str ""
  | _ => Str (astype_str v)
  end.

(** [df[c]] on a parsed table. *)
Definition parsed_column (df : parsed) (c : string) : result (list value) :=
  match list_index c (p_columns df) with
  | Some i => Ok ((λ row, default VNaN (row !! i)) <$> p_rows df)
  | None => Raise (KeyError c)
  end.

(** The row test of line 200. *)
Definition keeps_g (g : value) : bool :=
  value_notna g && negb (bool_decide (strip (astype_str g) = "")).

Definition cleanup_filter (df : parsed) : result (list (list value)) :=
  g ← parsed_column df "g";
  Ok (select (keeps_g <$> g) (p_rows df)).

(** Lines 195-200: everything the [try] block does before it reopens the
    file.  The result is the list of pieces to write. *)
Definition cleanup_plan (all_lines : list string) : result (list string) :=
  polar_start ← index_of polar_line all_lines;
  products_index ← index_of products_line all_lines;
  polar_header ← list_getitem all_lines (polar_start + 1);
  let polar_data := py_slice (polar_start + 2) (Z.of_nat products_index) all_lines in
  polar_df ← read_csv (polar_header ++ concat_lines polar_data);
  kept ← cleanup_filter polar_df;
  Ok [ concat_lines (take (polar_start + 1) all_lines);
       polar_header;
       to_csv ((λ row : list value, fillna_str <$> row) <$> kept);
       nl;
       concat_lines (drop products_index all_lines) ].


Definition cleanup_pass (io : io_behaviour) (content : string) : string * cleanup_outcome :=
  match io with
  | RereadFails => (content, Uncaught OSError)
  | _ =>
      match cleanup_plan (readlines content) with
      | Raise e => (content, Caught e)
      | Ok pieces =>
          match io with
          | ReopenFails => (content, Caught OSError)
          | WriteFails n =>
              if decide (n < List.length pieces)%nat
              then (concat_lines (take n pieces), Caught OSError)
              else (concat_lines pieces, Cleaned)
          | _ => (concat_lines pieces, Cleaned)
          end
      end
  end.

(** ** The whole run *)


(** Everything up to line 175, before the output file is opened. *)
Record prepared := {
  channel_data : list (string * Series);
  doc : document;
  final_columns : list string;
  state : match_state;
  updated_hoi_df : list (list cell);
  polar_clean : list (list cell)
}.

Definition prepare (inp : inputs) : result prepared :=
  data ← build_channel_data (channel_df inp) (background_df inp);
  d ← read_document (lines inp);
  st ← matching_loop (original_hoi_df d) data;
  rows ← updated_rows (matched_data st) (original_hoi_df d);
  let cols := extend_columns (hoi_columns d) in
  polar ← polar_df_clean (polar_columns d)
    (polar_updates data (atlas_to_csv_id st) (polar_columns d) (depol_date inp));
  Ok {| channel_data := data;
        doc := d;
        final_columns := cols;
        state := st;
        updated_hoi_df := reindex cols rows;
        polar_clean := reindex (polar_columns d) polar |}.

Definition log_text (log_lines : list string) : string :=
  ("Channel Matching Log" ++ nl) ++ ("====================" ++ nl ++ nl) ++
  concat_lines ((λ line, line ++ nl) <$> log_lines).

Definition run (io : io_behaviour) (inp : inputs) : outcome :=
  match prepare inp with
  | Raise e =>
      {| output_file := None; log_file := None; console := []; status := Raise e |}
  | Ok p =>
      match assemble (lines inp) (hoi_start (doc p)) (final_columns p)
              (polar_columns (doc p)) (updated_hoi_df p) (polar_clean p) with
      | (content, Raise e) =>
          {| output_file := Some content; log_file := None; console := [];
             status := Raise e |}
      | (content, Ok _) =>
          match cleanup_pass io content with
          | (content', Uncaught e) =>
              {| output_file := Some content'; log_file := None; console := [];
                 status := Raise e |}
          | (content', Caught e) =>
              {| output_file := Some content';
                 log_file := Some (log_text (log_lines (state p)));
                 console := [PostCleanupError e; Done; LogSaved];
                 status := Ok () |}
          | (content', Cleaned) =>
              {| output_file := Some content';
                 log_file := Some (log_text (log_lines (state p)));
                 console := [Done; LogSaved];
                 status := Ok () |}
          end
      end
  end.

(** ** Invariant of the matching loop, with the records

    The loop stores records by row id and identifiers by name.  *)

(** With distinct identifiers, as the keys of a dict are, the ids under
    which a record is stored are the ids of the correspondence, and the
    record stored under an id is the one of the identifier mapped to it. *)
Definition records_ok (all : list (string * Series)) (st : match_state) : Prop :=
  correspondence_ok st ∧
  (∀ i, is_Some (matched_data st !! i) → ∃ a, atlas_to_csv_id st !! a = Some i) ∧
  (∀ a i, atlas_to_csv_id st !! a = Some i →
     ∃ m, matched_data st !! i = Some m ∧ od_get a all = Some m).

(** Tactics such as [tauto] and [congruence] generalise over the whole
    context; a proof that does not concern the library functions forgets
    them first. *)
Ltac forget_library :=
  try clear to_csv; try clear read_csv; try clear float_str;
  try clear py_int; try clear py_round; try clear py_float; try clear float.


(** * Properties *)

(** ** Generic facts *)

Lemma for_each_app {A S} (body : S → A → result S) l1 l2 s :
  for_each body (l1 ++ l2) s = (s' ← for_each body l1 s; for_each body l2 s').
Proof.
  revert s. induction l1 as [|a l1 IH]; intros s; simpl; [done|].
  destruct (body s a) as [s'|e]; simpl; [apply IH | done].
Qed.

Lemma for_each_cons {A S} (body : S → A → result S) a l s :
  for_each body (a :: l) s = (s' ← body s a; for_each body l s').
Proof. done. Qed.

Lemma for_each_invariant {A S} (body : S → A → result S) (P : S → Prop) l s s' :
  (∀ s a s', P s → body s a = Ok s' → P s') →
  P s → for_each body l s = Ok s' → P s'.
Proof.
  intros Hstep. revert s. induction l as [|a l IH]; intros s Hs; simpl.
  - by intros [= <-].
  - destruct (body s a) as [s1|e] eqn:Hb; simpl; [|done].
    apply IH. by eapply Hstep.
Qed.

Lemma select_map_filter {A B} (f : A → bool) (g : A → B) (l : list A) :
  select (f <$> l) (g <$> l) = g <$> filter (λ x, f x = true) l.
Proof.
  induction l as [|x l IH]; csimpl; [done|].
  rewrite filter_cons. destruct (f x) eqn:Hf.
  - rewrite decide_True by done. csimpl. by rewrite IH.
  - rewrite decide_False by congruence. done.
Qed.

Lemma filter_none {A} (P : A → Prop) `{!∀ x, Decision (P x)} (l : list A) :
  Forall (λ x, ¬ P x) l → filter P l = [].
Proof.
  induction 1 as [|x l Hx _ IH]; [done|].
  rewrite filter_cons. by rewrite decide_False.
Qed.

Lemma zip_with_andb_map {A} (f g : A → bool) (l : list A) :
  zip_with andb (f <$> l) (g <$> l) = (λ x, f x && g x) <$> l.
Proof. induction l; csimpl; [done|]. by f_equal. Qed.

(** ** File detection *)

Lemma ends_with_length (suffix name : string) :
  ends_with suffix name = true → (String.length suffix ≤ String.length name)%nat.
Proof.
  induction name as [|c name IH]; simpl.
  - rewrite orb_false_r. by intros <-%bool_decide_eq_true.
  - intros [<-%bool_decide_eq_true|Hrest%IH]%orb_true_iff; simpl; lia.
Qed.

(** A name has one ending of a given length. *)
Lemma ends_with_unique (a b name : string) :
  ends_with a name = true → ends_with b name = true →
  String.length a = String.length b → a = b.
Proof.
  induction name as [|c name IH]; simpl.
  - rewrite !orb_false_r. by intros <-%bool_decide_eq_true <-%bool_decide_eq_true.
  - intros [Ha%bool_decide_eq_true|Ha]%orb_true_iff
      [Hb%bool_decide_eq_true|Hb]%orb_true_iff Hlen.
    + congruence.
    + apply ends_with_length in Hb. subst a. simpl in Hlen. lia.
    + apply ends_with_length in Ha. subst b. simpl in Hlen. lia.
    + by apply IH.
Qed.

Lemma after_prefix_ends_with (p suffix name rest : string) :
  after_prefix p name = Some rest → ends_with suffix rest = true →
  ends_with suffix name = true.
Proof.
  revert name. induction p as [|a p IH]; intros name; simpl.
  - by intros [= <-].
  - destruct name as [|b name]; [done|]. case_decide; [|done].
    intros Hrest Hends. simpl. rewrite (IH _ Hrest Hends). apply orb_true_r.
Qed.

Lemma glob_ignores (before after : string) (Q : string → Prop)
    `{!∀ name, Decision (Q name)} (l1 l2 : list string) :
  (∀ name, glob_match before after name = true → Q name) →
  filter Q l1 = filter Q l2 →
  glob before after l1 = glob before after l2.
Proof.
  intros Hsub Heq. unfold glob.
  assert (∀ l : list string,
            filter (λ name, glob_match before after name = true) l =
            filter (λ name, glob_match before after name = true) (filter Q l)) as Hfilter.
  { intros l. induction l as [|x l IH]; [done|].
    rewrite !filter_cons.
    destruct (decide (glob_match before after x = true)) as [Hx|Hx].
    - rewrite (decide_True (P := Q x)) by auto.
      rewrite filter_cons, decide_True by done. by rewrite IH.
    - destruct (decide (Q x)); [|done].
      rewrite filter_cons, decide_False by done. done. }
  by rewrite (Hfilter l1), (Hfilter l2), Heq.
Qed.

(** The files the script writes are never taken for its inputs: two
    directories that differ only in files named like the output file and
    the log file give the same detection, so that a second run in the same
    directory reads the same two files. *)
Theorem outputs_are_not_inputs (directory directory' : list string)
    (pdf csv out log : string) :
  autodetect directory = Detected pdf csv out log →
  filter (λ name, name ≠ out ∧ name ≠ log) directory' =
    filter (λ name, name ≠ out ∧ name ≠ log) directory →
  autodetect directory' = Detected pdf csv out log.
Proof.
  intros Hdetect Hsame.
  assert (out = "NEW_" ++ csv ∧ log = "CSV_match.log" ∧
          csv ∈ glob "LidarConfiguration" ".csv" directory) as (-> & -> & Hcsv).
  { unfold autodetect in Hdetect.
    destruct (glob "" ".pdf" directory); [done|].
    destruct (glob "LidarConfiguration" ".csv" directory) as [|c [|??]]; [done| |done].
    injection Hdetect as <- <- <- <-. split_and!; [done..|apply list_elem_of_here]. }
  apply list_elem_of_filter in Hcsv as [Hcsv _]. unfold glob_match in Hcsv.
  destruct (after_prefix "LidarConfiguration" csv) as [rest|] eqn:Hrest; [|done].
  apply andb_true_iff in Hcsv as [Hends _].
  pose proof (after_prefix_ends_with _ _ _ _ Hrest Hends) as Hcsv.
  unfold autodetect in *.
  rewrite (glob_ignores "" ".pdf"
             (λ name, name ≠ "NEW_" ++ csv ∧ name ≠ "CSV_match.log") directory' directory),
    (glob_ignores "LidarConfiguration" ".csv"
       (λ name, name ≠ "NEW_" ++ csv ∧ name ≠ "CSV_match.log") directory' directory);
    [done| |done| |done].
  - intros name Hname. split; intros ->; [|by vm_compute in Hname].
    unfold glob_match in Hname.
    change ("NEW_" ++ csv) with (String "N" (String "E" (String "W" (String "_" csv))))
      in Hname.
    by simpl in Hname.
  - intros name Hname. split; intros ->; [|by vm_compute in Hname].
    unfold glob_match in Hname.
    change ("NEW_" ++ csv) with (String "N" (String "E" (String "W" (String "_" csv))))
      in Hname.
    simpl in Hname. apply andb_true_iff in Hname as [Hpdf _].
    assert (ends_with ".pdf" csv = true) as Hpdf'.
    { repeat (apply orb_true_iff in Hpdf as [Hpdf%bool_decide_eq_true|Hpdf];
                [discriminate Hpdf|]).
      done. }
    by pose proof (ends_with_unique _ _ _ Hcsv Hpdf' eq_refl).
Qed.

(** ** Text and lines *)

Lemma string_app_cons (c : ascii) (a b : string) : String c a ++ b = String c (a ++ b).
Proof. done. Qed.

Lemma string_app_assoc (a b c : string) : (a ++ b) ++ c = a ++ b ++ c.
Proof.
  induction a as [|x a IH]; [done|]. rewrite !string_app_cons. by rewrite IH.
Qed.

Lemma string_app_nil_r (a : string) : a ++ "" = a.
Proof.
  induction a as [|x a IH]; [done|]. rewrite string_app_cons. by rewrite IH.
Qed.

Lemma concat_lines_cons (x : string) (l : list string) :
  concat_lines (x :: l) = x ++ concat_lines l.
Proof. done. Qed.

Lemma concat_lines_app (l1 l2 : list string) :
  concat_lines (l1 ++ l2) = concat_lines l1 ++ concat_lines l2.
Proof.
  induction l1 as [|x l1 IH]; [done|].
  rewrite <- app_comm_cons, !concat_lines_cons, IH. by rewrite string_app_assoc.
Qed.

Lemma split_lines_lf (s : string) :
  split_lines (String (ascii_of_nat 10) s) = nl :: split_lines s.
Proof. done. Qed.

Lemma split_lines_other (c : ascii) (s : string) :
  c ≠ ascii_of_nat 10 →
  split_lines (String c s) =
    match split_lines s with
    | line :: rest => String c line :: rest
    | [] => [String c ""]
    end.
Proof. intros Hc. simpl. by rewrite decide_False. Qed.

Lemma split_lines_nonempty (c : ascii) (s : string) : split_lines (String c s) ≠ [].
Proof.
  destruct (decide (c = ascii_of_nat 10)) as [->|Hc].
  - by rewrite split_lines_lf.
  - rewrite split_lines_other by done. by destruct (split_lines s).
Qed.

(** Cutting a text into lines loses nothing. *)
Lemma concat_split_lines (s : string) : concat_lines (split_lines s) = s.
Proof.
  induction s as [|c s IH]; [done|].
  destruct (decide (c = ascii_of_nat 10)) as [->|Hc].
  - rewrite split_lines_lf, concat_lines_cons, IH. done.
  - rewrite split_lines_other by done.
    destruct (split_lines s) as [|line rest].
    + by rewrite <- IH.
    + by rewrite concat_lines_cons, string_app_cons, <- concat_lines_cons, IH.
Qed.

(** A line feed ends a line, whatever comes before and after. *)
Lemma split_lines_app_nl (a v : string) :
  split_lines (a ++ nl ++ v) = (split_lines (a ++ nl) ++ split_lines v)%list.
Proof.
  induction a as [|c a IH]; [done|].
  rewrite !string_app_cons.
  destruct (decide (c = ascii_of_nat 10)) as [->|Hc].
  - rewrite !split_lines_lf, IH. done.
  - rewrite !split_lines_other, IH by done.
    destruct (split_lines (a ++ nl)) as [|line rest] eqn:Hsplit; [|done].
    exfalso. destruct a; by eapply split_lines_nonempty.
Qed.

Lemma translate_newlines_cr_lf (s : string) :
  translate_newlines (String (ascii_of_nat 13) (String (ascii_of_nat 10) s)) =
    String (ascii_of_nat 10) (translate_newlines s).
Proof. done. Qed.

Lemma translate_newlines_cr (c : ascii) (s : string) :
  c ≠ ascii_of_nat 10 →
  translate_newlines (String (ascii_of_nat 13) (String c s)) =
    String (ascii_of_nat 10) (translate_newlines (String c s)).
Proof.
  intros Hc.
  change (translate_newlines (String (ascii_of_nat 13) (String c s)))
    with (String (ascii_of_nat 10)
            (if decide (c = ascii_of_nat 10) then translate_newlines s
             else translate_newlines (String c s))).
  by rewrite decide_False.
Qed.

Lemma translate_newlines_other (c : ascii) (s : string) :
  c ≠ ascii_of_nat 13 →
  translate_newlines (String c s) = String c (translate_newlines s).
Proof.
  intros Hc.
  change (translate_newlines (String c s))
    with (if decide (c = ascii_of_nat 13) then
            String (ascii_of_nat 10)
              (match s with
               | String c' s'' =>
                   if decide (c' = ascii_of_nat 10) then translate_newlines s''
                   else translate_newlines s
               | EmptyString => EmptyString
               end)
          else String c (translate_newlines s)).
  by rewrite decide_False.
Qed.

(** A line feed in the file is a line feed in the text read, and what
    follows it is read on its own. *)
Lemma translate_newlines_app_nl (a : string) :
  ∃ a', ∀ y, translate_newlines (a ++ nl ++ y) = a' ++ nl ++ translate_newlines y.
Proof.
  remember (String.length a) as n eqn:Hn. revert a Hn.
  induction n as [n IH] using lt_wf_ind. intros a Hn.
  destruct a as [|c a].
  { exists "". intros y. apply (translate_newlines_other (ascii_of_nat 10)). done. }
  destruct (decide (c = ascii_of_nat 13)) as [->|Hc].
  - destruct a as [|c' a].
    { exists "". intros y. apply translate_newlines_cr_lf. }
    destruct (decide (c' = ascii_of_nat 10)) as [->|Hc'].
    + destruct (IH (String.length a) ltac:(simpl in Hn; lia) a eq_refl) as [a' Ha'].
      exists (String (ascii_of_nat 10) a'). intros y.
      rewrite !string_app_cons, translate_newlines_cr_lf, Ha'. done.
    + destruct (IH (String.length (String c' a)) ltac:(simpl in Hn |- *; lia)
                  (String c' a) eq_refl) as [a' Ha'].
      exists (String (ascii_of_nat 10) a'). intros y.
      rewrite (string_app_cons (ascii_of_nat 13)), (string_app_cons c').
      rewrite translate_newlines_cr by done.
      rewrite <- (string_app_cons c'), Ha'. done.
  - destruct (IH (String.length a) ltac:(simpl in Hn; lia) a eq_refl) as [a' Ha'].
    exists (String c a'). intros y.
    rewrite string_app_cons, translate_newlines_other, Ha' by done. done.
Qed.

Lemma readlines_app_nl (a y : string) :
  readlines (a ++ nl ++ y) = (readlines (a ++ nl) ++ readlines y)%list.
Proof.
  unfold readlines. destruct (translate_newlines_app_nl a) as [a' Ha'].
  pose proof (Ha' "") as H0.
  change (a ++ nl ++ "") with (a ++ nl) in H0.
  change (a' ++ nl ++ translate_newlines "") with (a' ++ nl) in H0.
  by rewrite Ha', H0, split_lines_app_nl.
Qed.

Lemma concat_readlines (content : string) :
  concat_lines (readlines content) = translate_newlines content.
Proof. apply concat_split_lines. Qed.

Lemma readlines_nonempty (a : string) : readlines (a ++ nl) ≠ [].
Proof.
  unfold readlines. destruct (translate_newlines_app_nl a) as [a' Ha'].
  pose proof (Ha' "") as H0.
  change (a ++ nl ++ "") with (a ++ nl) in H0.
  change (a' ++ nl ++ translate_newlines "") with (a' ++ nl) in H0.
  rewrite H0. destruct a'; apply split_lines_nonempty.
Qed.

(** *** The lines of a file that has been read *)



















Lemma list_index_app_here (x : string) (l1 l2 : list string) :
  ∃ i, list_index x (l1 ++ x :: l2) = Some i ∧ (i ≤ List.length l1)%nat.
Proof.
  induction l1 as [|y l1 (i & Hi & Hle)]; simpl.
  - exists 0%nat. by rewrite decide_True.
  - destruct (decide (y = x)).
    + exists 0%nat. split; [done|lia].
    + exists (S i). rewrite Hi. split; [done|lia].
Qed.

(** *** Blanks and separators *)

Lemma lstrip_length (s : string) : (String.length (lstrip s) ≤ String.length s)%nat.
Proof. induction s as [|c s IH]; simpl; [done|]. destruct (is_space c); simpl; lia. Qed.

Lemma lstrip_fixed_inv (c : ascii) (t : string) :
  lstrip (String c t) = String c t → is_space c = false.
Proof.
  simpl. destruct (is_space c); [|done]. intros Heq.
  pose proof (lstrip_length t) as Hlen. rewrite Heq in Hlen. simpl in Hlen. lia.
Qed.

Lemma lstrip_nonspace (c : ascii) (t : string) :
  is_space c = false → lstrip (String c t) = String c t.
Proof. simpl. by intros ->. Qed.

Lemma lstrip_idem (s : string) : lstrip (lstrip s) = lstrip s.
Proof.
  induction s as [|c s IH]; simpl; [done|].
  destruct (is_space c) eqn:Hc; [done|]. by apply lstrip_nonspace.
Qed.

Lemma rstrip_cons (c : ascii) (j : string) :
  is_space c = false → rstrip j = j → rstrip (String c j) = String c j.
Proof. intros Hc Hj. simpl. rewrite Hj. destruct j; by rewrite ?Hc. Qed.

Lemma rstrip_head (c : ascii) (t : string) :
  is_space c = false → ∃ u, rstrip (String c t) = String c u.
Proof. intros Hc. simpl. destruct (rstrip t); [rewrite Hc|]; by eexists. Qed.

Lemma rstrip_idem (s : string) : rstrip (rstrip s) = rstrip s.
Proof.
  induction s as [|c s IH]; simpl; [done|].
  destruct (rstrip s) as [|c' t] eqn:Hs.
  - destruct (is_space c) eqn:Hc; [done|]. simpl. by rewrite Hc.
  - change (rstrip (String c (String c' t)))
      with (match rstrip (String c' t) with
            | EmptyString => if is_space c then EmptyString else String c EmptyString
            | u => String c u
            end).
    by rewrite IH.
Qed.

Lemma strip_stripped (s : string) :
  lstrip (strip s) = strip s ∧ rstrip (strip s) = strip s.
Proof.
  unfold strip. split; [|apply rstrip_idem].
  pose proof (lstrip_idem s) as Ht. destruct (lstrip s) as [|c t]; [done|].
  apply lstrip_fixed_inv in Ht. destruct (rstrip_head c t Ht) as [u ->].
  by apply lstrip_nonspace.
Qed.

Lemma rstrip_app_nl (s : string) : rstrip (s ++ nl) = rstrip s.
Proof.
  induction s as [|c s IH]; [done|].
  rewrite string_app_cons. simpl. by rewrite IH.
Qed.

Lemma rstrip_app (a b : string) :
  rstrip b = b → b ≠ "" → rstrip (a ++ b) = a ++ b.
Proof.
  intros Hb Hne. induction a as [|c a IH]; [done|].
  rewrite string_app_cons. simpl. rewrite IH.
  destruct (a ++ b) eqn:Hab; [|done].
  destruct a; [by change ("" ++ b) with b in Hab|by rewrite string_app_cons in Hab].
Qed.

Lemma strip_line (s : string) :
  lstrip s = s → rstrip s = s → strip (s ++ nl) = s.
Proof.
  intros Hl Hr. unfold strip. destruct s as [|c t]; [done|].
  apply lstrip_fixed_inv in Hl.
  rewrite string_app_cons, lstrip_nonspace by done.
  by rewrite <- string_app_cons, rstrip_app_nl.
Qed.

Lemma lstrip_chars (P : ascii → Prop) (s : string) :
  Forall P (list_ascii_of_string s) → Forall P (list_ascii_of_string (lstrip s)).
Proof.
  induction s as [|c s IH]; simpl; [done|].
  intros [Hc Hs]%Forall_cons. destruct (is_space c); [by apply IH|].
  simpl. by constructor.
Qed.

Lemma rstrip_chars (P : ascii → Prop) (s : string) :
  Forall P (list_ascii_of_string s) → Forall P (list_ascii_of_string (rstrip s)).
Proof.
  induction s as [|c s IH]; simpl; [done|].
  intros [Hc Hs]%Forall_cons. specialize (IH Hs).
  destruct (rstrip s).
  - destruct (is_space c); simpl; [done|]. by constructor.
  - simpl. by constructor.
Qed.

Lemma split_nonempty (sep : ascii) (s : string) : split sep s ≠ [].
Proof.
  induction s as [|c s IH]; simpl; [done|].
  case_decide; [done|]. by destruct (split sep s).
Qed.

Lemma split_nosep (sep : ascii) (s : string) :
  Forall (λ ch, ch ≠ sep) (list_ascii_of_string s) → split sep s = [s].
Proof.
  induction s as [|c s IH]; simpl; [done|].
  intros [Hc Hs]%Forall_cons. rewrite decide_False by done. by rewrite IH.
Qed.

Lemma split_app_sep (sep : ascii) (x rest : string) :
  Forall (λ ch, ch ≠ sep) (list_ascii_of_string x) →
  split sep (x ++ String sep rest) = x :: split sep rest.
Proof.
  induction x as [|c x IH].
  - intros _. change ("" ++ String sep rest) with (String sep rest).
    simpl. by rewrite decide_True.
  - intros [Hc Hx]%Forall_cons. rewrite string_app_cons. simpl.
    rewrite decide_False by done. by rewrite IH.
Qed.

Lemma split_join (sep : ascii) (cols : list string) :
  cols ≠ [] →
  Forall (λ c, Forall (λ ch, ch ≠ sep) (list_ascii_of_string c)) cols →
  split sep (join (String sep "") cols) = cols.
Proof.
  induction cols as [|x cols IH]; [done|]. intros _ [Hx Hcols]%Forall_cons.
  destruct cols as [|y l].
  - by apply split_nosep.
  - change (join (String sep "") (x :: y :: l))
      with (x ++ String sep (join (String sep "") (y :: l))).
    rewrite split_app_sep by done. by rewrite IH.
Qed.

Lemma split_fields (sep : ascii) (s : string) :
  Forall (λ f, Forall (λ ch, ch ≠ sep) (list_ascii_of_string f)) (split sep s).
Proof.
  induction s as [|c s IH]; simpl.
  - by repeat constructor.
  - case_decide; [by constructor|].
    destruct (split sep s) as [|f fs].
    + by repeat constructor.
    + apply Forall_cons in IH as [Hf Hfs]. constructor; [|done]. simpl. by constructor.
Qed.

Lemma header_columns_clean (line : string) :
  header_columns line ≠ [] ∧ Forall clean_column (header_columns line).
Proof.
  unfold header_columns. split.
  - pose proof (split_nonempty "," (strip line)). by destruct (split "," (strip line)).
  - apply Forall_fmap. eapply Forall_impl; [apply split_fields|].
    intros f Hf. simpl. destruct (strip_stripped f) as [Hl Hr].
    split_and!; [done..|]. unfold strip. by apply rstrip_chars, lstrip_chars.
Qed.

Lemma join_stripped (cols : list string) :
  Forall clean_column cols →
  lstrip (join "," cols) = join "," cols ∧ rstrip (join "," cols) = join "," cols.
Proof.
  induction cols as [|x cols IH]; [done|]. intros [(Hl & Hr & _) Hcols]%Forall_cons.
  destruct cols as [|y l]; [done|].
  destruct (IH Hcols) as [_ IHr].
  change (join "," (x :: y :: l)) with (x ++ String "," (join "," (y :: l))).
  assert (rstrip (String "," (join "," (y :: l))) = String "," (join "," (y :: l)))
    as Htail by (by apply rstrip_cons).
  split; [|by apply rstrip_app].
  destruct x as [|c t]; [by apply lstrip_nonspace|].
  rewrite string_app_cons. apply lstrip_nonspace. by eapply lstrip_fixed_inv.
Qed.

Lemma header_columns_join (cols : list string) :
  cols ≠ [] → Forall clean_column cols → header_columns (join "," cols ++ nl) = cols.
Proof.
  intros Hne Hclean. unfold header_columns.
  destruct (join_stripped cols Hclean) as [Hl Hr].
  rewrite strip_line by done.
  rewrite split_join; [|done|by eapply Forall_impl; [done|]; intros c (_ & _ & Hc)].
  apply list_eq. intros k. rewrite list_lookup_fmap.
  destruct (cols !! k) as [c|] eqn:Hc; [|done]. simpl. f_equal.
  apply (Forall_lookup_1 _ _ _ _ Hclean) in Hc as (Hcl & Hcr & _).
  unfold strip. by rewrite Hcl.
Qed.

(** The header lines the script writes are read back by the script as
    the columns it wrote, and a header it has extended is not extended
    again: a second run on its own output sees the same columns. *)
Theorem written_header_is_read_back (line : string) :
  header_columns (join "," (header_columns line) ++ nl) = header_columns line ∧
  header_columns (join "," (extend_columns (header_columns line)) ++ nl) =
    extend_columns (header_columns line) ∧
  extend_columns (extend_columns (header_columns line)) =
    extend_columns (header_columns line).
Proof.
  destruct (header_columns_clean line) as [Hne Hclean].
  split_and!.
  - by apply header_columns_join.
  - apply header_columns_join; unfold extend_columns; case_decide; try done.
    + by destruct (header_columns line).
    + apply Forall_app. split; [done|].
      repeat apply Forall_cons_2; try apply Forall_nil_2;
        unfold clean_column; (split_and!; [reflexivity..|]);
        by apply (bool_decide_unpack _).
  - unfold extend_columns.
    destruct (decide ("_Minimum_channel_height_" ∈ header_columns line)) as [Hin|Hin].
    + by rewrite decide_True.
    + rewrite decide_True; [done|].
      apply elem_of_app. right. apply list_elem_of_here.
Qed.

(** ** Identifier parser *)

Lemma char_at_substring (s : string) (i : nat) :
  (i < String.length s)%nat → char_at s i = Ok (substring i 1 s).
Proof.
  unfold char_at. revert i. induction s as [|c s IH]; intros i Hi; simpl in *; [lia|].
  destruct i as [|i]; simpl.
  - by destruct s.
  - apply IH. lia.
Qed.

Lemma char_at_short (s : string) (i : nat) :
  (String.length s ≤ i)%nat → char_at s i = Raise IndexError.
Proof.
  unfold char_at. revert i. induction s as [|c s IH]; intros i Hi; simpl in *; [done|].
  destruct i as [|i]; [lia|]. apply IH. lia.
Qed.

(** C9, for identifiers of the documented length: an identifier of seven
    characters or more always
    parses; the five fields are the positional slices, and the suffix is
    empty when the identifier has exactly seven characters. *)
Theorem parse_atlas_id_from_seven (s : string) :
  (7 ≤ String.length s)%nat →
  parse_atlas_id s =
    Ok {| wavelength := substring 0 4 s;
          range := substring 4 1 s;
          scattering := substring 5 1 s;
          mode := substring 6 1 s;
          suffix := if decide (String.length s = 7) then "" else substring 7 1 s |}.
Proof.
  intros Hlen. unfold parse_atlas_id.
  rewrite (char_at_substring s 4), (char_at_substring s 5),
    (char_at_substring s 6) by lia. simpl.
  destruct (decide (7 < String.length s)%nat) as [Hlt|Hge].
  - rewrite (char_at_substring s 7) by lia. simpl.
    rewrite decide_False by lia. done.
  - simpl. rewrite decide_True by lia. done.
Qed.

(** Below seven characters one of the three indexings is out of range. *)
Lemma parse_atlas_id_short (s : string) :
  (String.length s < 7)%nat → parse_atlas_id s = Raise IndexError.
Proof.
  intros Hlen. unfold parse_atlas_id.
  destruct (decide (String.length s ≤ 4)%nat).
  { by rewrite (char_at_short s 4). }
  rewrite (char_at_substring s 4) by lia. simpl.
  destruct (decide (String.length s ≤ 5)%nat).
  { by rewrite (char_at_short s 5). }
  rewrite (char_at_substring s 5) by lia. simpl.
  by rewrite (char_at_short s 6) by lia.
Qed.

Lemma parse_atlas_id_ok (s : string) parts :
  parse_atlas_id s = Ok parts →
  (7 ≤ String.length s)%nat ∧ wavelength parts = substring 0 4 s.
Proof.
  unfold parse_atlas_id.
  destruct (char_at s 4) as [r|]; simpl; [|done].
  destruct (char_at s 5) as [c|]; simpl; [|done].
  destruct (char_at s 6) as [m|] eqn:H6; simpl; [|done].
  assert (7 ≤ String.length s)%nat as Hlen.
  { destruct (decide (String.length s ≤ 6)%nat) as [Hle|]; [|lia].
    by rewrite (char_at_short s 6 Hle) in H6. }
  destruct (decide (7 < String.length s)%nat).
  - destruct (char_at s 7); simpl; [|done]. by intros [= <-].
  - simpl. by intros [= <-].
Qed.

Lemma parse_atlas_id_total (s : string) :
  (7 ≤ String.length s)%nat → ∃ parts, parse_atlas_id s = Ok parts.
Proof.
  intros Hlen. unfold parse_atlas_id.
  rewrite (char_at_substring s 4), (char_at_substring s 5),
    (char_at_substring s 6) by lia. simpl.
  destruct (decide (7 < String.length s)%nat).
  - rewrite (char_at_substring s 7) by lia. simpl. by eexists.
  - simpl. by eexists.
Qed.

Lemma parse_atlas_id_fields (s : string) parts :
  parse_atlas_id s = Ok parts →
  wavelength parts = substring 0 4 s ∧ mode parts = substring 6 1 s.
Proof.
  intros Hparts. destruct (parse_atlas_id_ok s parts Hparts) as [Hlen Hw].
  split; [done|]. revert Hparts. unfold parse_atlas_id.
  rewrite (char_at_substring s 4), (char_at_substring s 5),
    (char_at_substring s 6) by lia. simpl.
  destruct (decide (7 < String.length s)%nat).
  - rewrite (char_at_substring s 7) by lia. simpl. by intros [= <-].
  - simpl. by intros [= <-].
Qed.

Lemma parse_atlas_id_raises (s : string) e :
  parse_atlas_id s = Raise e → e = IndexError.
Proof.
  unfold parse_atlas_id, char_at.
  destruct (String.get 4 s); simpl; [|by intros [= <-]].
  destruct (String.get 5 s); simpl; [|by intros [= <-]].
  destruct (String.get 6 s); simpl; [|by intros [= <-]].
  destruct (decide _); simpl; [|done].
  destruct (String.get 7 s); simpl; [done|by intros [= <-]].
Qed.

Lemma substring_app (s : string) (i n m : nat) :
  (i + n ≤ String.length s)%nat →
  substring i n s ++ substring (i + n) m s = substring i (n + m) s.
Proof.
  revert i n. induction s as [|c s IH]; intros i n Hlen; simpl in Hlen.
  - assert (i = 0%nat) as -> by lia. assert (n = 0%nat) as -> by lia. done.
  - destruct i as [|i]; simpl.
    + destruct n as [|n]; simpl; [done|].
      rewrite <- (IH 0%nat n) by lia. reflexivity.
    + apply IH. lia.
Qed.

Lemma substring_past (s : string) (i n : nat) :
  (String.length s ≤ i)%nat → substring i n s = "".
Proof.
  revert i. induction s as [|c s IH]; intros i Hlen; simpl in Hlen.
  - by destruct i, n.
  - destruct i as [|i]; [lia|]. simpl. apply IH. lia.
Qed.

(** The five fields of an identifier that parses, put together again, are
    its first eight characters: the parser cuts the identifier by position
    and looks at nothing after the eighth character. *)
Theorem parse_atlas_id_round_trip (s : string) parts :
  parse_atlas_id s = Ok parts →
  wavelength parts ++ range parts ++ scattering parts ++ mode parts ++ suffix parts =
    substring 0 8 s.
Proof.
  intros Hparts. destruct (parse_atlas_id_ok s parts Hparts) as [Hlen _].
  revert Hparts. unfold parse_atlas_id.
  rewrite (char_at_substring s 4), (char_at_substring s 5),
    (char_at_substring s 6) by lia. simpl.
  assert (substring 0 4 s ++ substring 4 1 s ++ substring 5 1 s ++
            substring 6 1 s ++ substring 7 1 s = substring 0 8 s) as Hall.
  { pose proof (substring_app s 6 1 1) as H6.
    pose proof (substring_app s 5 1 2) as H5.
    pose proof (substring_app s 4 1 3) as H4.
    pose proof (substring_app s 0 4 4) as H0.
    simpl in H6, H5, H4, H0.
    rewrite H6, H5, H4, H0 by lia. done. }
  destruct (decide (7 < String.length s)%nat).
  - rewrite (char_at_substring s 7) by lia. simpl. by intros [= <-].
  - simpl. intros [= <-]. simpl.
    rewrite <- Hall. by rewrite (substring_past s 7 1) by lia.
Qed.

(** ** The authoritative map *)

Lemma od_get_set {V} (k k' : string) (v : V) d :
  od_get k' (od_set k v d) = if decide (k = k') then Some v else od_get k' d.
Proof.
  induction d as [|[k0 v0] d IH]; simpl.
  - repeat case_decide; congruence.
  - destruct (decide (k0 = k)) as [->|Hne]; simpl.
    + repeat case_decide; congruence.
    + rewrite IH. repeat case_decide; congruence.
Qed.

Lemma od_set_keys {V} (k k' : string) (v : V) d :
  k' ∈ (od_set k v d).*1 ↔ k' = k ∨ k' ∈ d.*1.
Proof.
  forget_library.
  induction d as [|[k0 v0] d IH]; csimpl.
  - rewrite list_elem_of_singleton, elem_of_nil. tauto.
  - destruct (decide (k0 = k)) as [->|Hne]; csimpl;
      rewrite !elem_of_cons, ?IH; tauto.
Qed.

Lemma od_set_NoDup {V} (k : string) (v : V) d :
  NoDup d.*1 → NoDup (od_set k v d).*1.
Proof.
  induction d as [|[k0 v0] d IH]; csimpl; intros Hd.
  - apply NoDup_singleton.
  - apply NoDup_cons in Hd as [Hk0 Hd].
    destruct (decide (k0 = k)) as [->|Hne]; csimpl.
    + by apply NoDup_cons.
    + apply NoDup_cons. split; [|by apply IH].
      rewrite od_set_keys. intros [?|?]; congruence.
Qed.

Lemma od_update_keys (k : string) (u : Series) d : (od_update k u d).*1 = d.*1.
Proof.
  induction d as [|[k0 v0] d IH]; csimpl; [done|].
  destruct (decide (k0 = k)); csimpl; by f_equal.
Qed.

Lemma od_get_update (k k' : string) (u : Series) d :
  od_get k' (od_update k u d) =
    if decide (k = k') then (λ v, u ∪ v) <$> od_get k d else od_get k' d.
Proof.
  induction d as [|[k0 v0] d IH]; simpl.
  - by case_decide.
  - destruct (decide (k0 = k)) as [->|Hne]; simpl.
    + repeat case_decide; simpl; congruence.
    + rewrite IH. repeat case_decide; congruence.
Qed.

Lemma od_get_unique {V} (k : string) (v : V) d :
  NoDup d.*1 → od_get k d = Some v → filter (λ kv, kv.1 = k) d = [(k, v)].
Proof.
  induction d as [|[k0 v0] d IH]; csimpl; [done|].
  intros [Hk0 Hd]%NoDup_cons. rewrite filter_cons. simpl.
  destruct (decide (k0 = k)) as [->|Hne].
  - intros [= ->]. f_equal.
    apply filter_none, Forall_forall. intros [k1 v1] Hin. simpl. intros ->.
    apply Hk0. apply list_elem_of_fmap. by exists (k, v1).
  - by apply IH.
Qed.

Lemma add_channel_row_eq d (r : pdf_row) a :
  r !! "ATLAS ID" = Some a →
  add_channel_row d r =
    Ok (match a with
        | Some k => if decide (strip k ≠ "ATLAS ID") then od_set k (to_dict r) d else d
        | None => d
        end).
Proof.
  intros Ha. unfold add_channel_row, getitem. rewrite Ha. simpl.
  destruct a as [k|]; [by case_decide | done].
Qed.

Lemma add_background_row_eq d (r : pdf_row) a :
  r !! "ATLAS ID" = Some a →
  add_background_row d r =
    Ok (match a with Some k => od_update k (to_dict r) d | None => d end).
Proof.
  intros Ha. unfold add_background_row, getitem. rewrite Ha. simpl.
  by destruct a.
Qed.

Lemma channel_pass_total (l : list pdf_row) d :
  Forall (λ r, is_Some (r !! "ATLAS ID")) l →
  ∃ d', for_each add_channel_row l d = Ok d'.
Proof.
  intros Hl. revert d. induction Hl as [|r l [a Ha] _ IH]; intros d; simpl; [by eexists|].
  rewrite (add_channel_row_eq d r a Ha). simpl. apply IH.
Qed.

Lemma background_pass_total (l : list pdf_row) d :
  Forall (λ r, is_Some (r !! "ATLAS ID")) l →
  ∃ d', for_each add_background_row l d = Ok d'.
Proof.
  intros Hl. revert d. induction Hl as [|r l [a Ha] _ IH]; intros d; simpl; [by eexists|].
  rewrite (add_background_row_eq d r a Ha). simpl. apply IH.
Qed.

Lemma add_channel_row_NoDup d r d' :
  NoDup d.*1 → add_channel_row d r = Ok d' → NoDup d'.*1.
Proof.
  unfold add_channel_row, getitem. destruct (r !! "ATLAS ID") as [[a|]|]; simpl;
    [case_decide|..]; intros Hd [= <-]; auto using od_set_NoDup.
Qed.

Lemma add_background_row_NoDup d r d' :
  NoDup d.*1 → add_background_row d r = Ok d' → NoDup d'.*1.
Proof.
  unfold add_background_row, getitem. destruct (r !! "ATLAS ID") as [[a|]|]; simpl;
    intros Hd [= <-]; by rewrite ?od_update_keys.
Qed.

Lemma background_pass_frame (bg : list pdf_row) d0 d (aid : string) (rec0 : Series) :
  for_each add_background_row bg d0 = Ok d →
  NoDup d0.*1 →
  od_get aid d0 = Some rec0 →
  NoDup d.*1 ∧ ∃ rec, od_get aid d = Some rec ∧
    ∀ f, Forall (λ r, r !! f = None) bg → rec !! f = rec0 !! f.
Proof.
  revert d0 rec0. induction bg as [|r bg IH]; intros d0 rec0 Hd Hnd Hget; simpl in Hd.
  - injection Hd as <-. split; [done|]. by exists rec0.
  - destruct (add_background_row d0 r) as [d0'|] eqn:Hstep; simpl in Hd; [|done].
    pose proof (add_background_row_NoDup _ _ _ Hnd Hstep) as Hnd'.
    unfold add_background_row, getitem in Hstep.
    destruct (r !! "ATLAS ID") as [[a|]|] eqn:Ha; simpl in Hstep; [| |done];
      injection Hstep as <-; clear Ha.
    + destruct (decide (a = aid)) as [->|Hne].
      * destruct (IH _ (to_dict r ∪ rec0) Hd Hnd') as (? & rec & ? & Hrec).
        { rewrite od_get_update, decide_True by done. by rewrite Hget. }
        split; [done|]. exists rec. split; [done|].
        intros f [Hf Hfs]%Forall_cons. rewrite Hrec by done.
        apply lookup_union_r. unfold to_dict. by rewrite lookup_fmap, Hf.
      * destruct (IH _ rec0 Hd Hnd') as (? & rec & ? & Hrec).
        { rewrite od_get_update, decide_False by done. done. }
        split; [done|]. exists rec. split; [done|].
        intros f [Hf Hfs]%Forall_cons. by apply Hrec.
    + destruct (IH _ rec0 Hd Hnd Hget) as (? & rec & ? & Hrec).
      split; [done|]. exists rec. split; [done|].
      intros f [Hf Hfs]%Forall_cons. by apply Hrec.
Qed.

(** C10: when several rows of the channel table carry the same identifier
    (one that is present and is not the header token), the map holds one
    record under it, the last such row's; the background table afterwards
    only touches the fields it names. *)
Theorem channel_data_last_row_wins
    (pre post background_df : list pdf_row) (row : pdf_row) (aid : string) :
  Forall (λ r, is_Some (r !! "ATLAS ID")) (pre ++ row :: post) →
  Forall (λ r, is_Some (r !! "ATLAS ID")) background_df →
  row !! "ATLAS ID" = Some (Some aid) →
  strip aid ≠ "ATLAS ID" →
  Forall (λ r, r !! "ATLAS ID" ≠ Some (Some aid)) post →
  ∃ d1 d rec,
    channel_pass (pre ++ row :: post) = Ok d1 ∧
    filter (λ kv, kv.1 = aid) d1 = [(aid, to_dict row)] ∧
    build_channel_data (pre ++ row :: post) background_df = Ok d ∧
    filter (λ kv, kv.1 = aid) d = [(aid, rec)] ∧
    ∀ f, Forall (λ r, r !! f = None) background_df → rec !! f = to_dict row !! f.
Proof.
  intros Hall Hbg Haid Hhdr Hpost.
  destruct (channel_pass_total _ [] Hall) as [d1 Hd1].
  assert (NoDup d1.*1) as Hnd1.
  { apply (for_each_invariant add_channel_row (λ d, NoDup d.*1) (pre ++ row :: post) [] d1);
      [intros ????; by eapply add_channel_row_NoDup | apply NoDup_nil_2 | exact Hd1]. }
  assert (od_get aid d1 = Some (to_dict row)) as Hget1.
  { unfold channel_pass in Hd1. rewrite for_each_app in Hd1.
    destruct (for_each add_channel_row pre []) as [d0|] eqn:Hd0; simpl in Hd1; [|done].
    rewrite (add_channel_row_eq d0 row _ Haid) in Hd1. simpl in Hd1.
    rewrite decide_True in Hd1 by done.
    revert Hd1. generalize (od_get_set aid aid (to_dict row) d0).
    rewrite decide_True by done. generalize (od_set aid (to_dict row) d0).
    apply Forall_app in Hall as [_ [_ Hall]%Forall_cons].
    induction Hpost as [|r post Hr _ IH]; intros d2 Hd2; simpl.
    - by intros [= <-].
    - apply Forall_cons in Hall as [[a Ha] Hall].
      rewrite (add_channel_row_eq d2 r a Ha). simpl.
      apply IH; [done|]. destruct a as [a|]; [|done]. case_decide; [|done].
      rewrite od_get_set. rewrite decide_False; [done|congruence]. }
  destruct (background_pass_total _ d1 Hbg) as [d Hd].
  destruct (background_pass_frame _ _ _ aid _ Hd Hnd1 Hget1) as (Hnd & rec & Hget & Hrec).
  exists d1, d, rec. split_and!; auto using od_get_unique.
  unfold build_channel_data, channel_pass. by rewrite Hd1.
Qed.

(** *** The keys of the map and the background table *)

Lemma od_set_keys_list {V} (k : string) (v : V) d :
  (od_set k v d).*1 = if decide (k ∈ d.*1) then d.*1 else (d.*1 ++ [k])%list.
Proof.
  induction d as [|[k0 v0] d IH]; csimpl; [done|].
  destruct (decide (k0 = k)) as [->|Hne]; csimpl.
  - rewrite decide_True; [done|]. apply list_elem_of_here.
  - rewrite IH. destruct (decide (k ∈ d.*1)) as [Hin|Hnin].
    + rewrite decide_True; [done|]. by apply list_elem_of_further.
    + rewrite decide_False; [done|].
      intros [?|?]%elem_of_cons; congruence.
Qed.

Lemma channel_pass_keys (l : list pdf_row) d0 d :
  for_each add_channel_row l d0 = Ok d →
  d.*1 = foldl (λ acc a, if decide (a ∈ acc) then acc else (acc ++ [a])%list)
           (d0.*1) (omap accepted_identifier l).
Proof.
  revert d0. induction l as [|r l IH]; intros d0.
  { by intros [= <-]. }
  rewrite for_each_cons. csimpl.
  destruct (r !! "ATLAS ID") as [[a|]|] eqn:Ha.
  - assert (accepted_identifier r =
              if decide (strip a ≠ "ATLAS ID") then Some a else None) as ->
      by (unfold accepted_identifier; by rewrite Ha).
    rewrite (add_channel_row_eq d0 r _ Ha). simpl.
    destruct (decide (strip a ≠ "ATLAS ID")); simpl.
    + intros Hd. rewrite (IH _ Hd). by rewrite od_set_keys_list.
    + apply IH.
  - assert (accepted_identifier r = None) as ->
      by (unfold accepted_identifier; by rewrite Ha).
    rewrite (add_channel_row_eq d0 r _ Ha). simpl. apply IH.
  - unfold add_channel_row, getitem. by rewrite Ha.
Qed.

Lemma background_pass_keys (l : list pdf_row) d0 d :
  for_each add_background_row l d0 = Ok d → d.*1 = d0.*1.
Proof.
  revert d0. induction l as [|r l IH]; intros d0.
  { by intros [= <-]. }
  rewrite for_each_cons.
  destruct (r !! "ATLAS ID") as [[a|]|] eqn:Ha.
  - rewrite (add_background_row_eq d0 r _ Ha). simpl.
    intros Hd. rewrite (IH _ Hd). apply od_update_keys.
  - rewrite (add_background_row_eq d0 r _ Ha). simpl. apply IH.
  - unfold add_background_row, getitem. by rewrite Ha.
Qed.

Lemma background_pass_other (l : list pdf_row) d0 d (aid : string) :
  for_each add_background_row l d0 = Ok d →
  Forall (λ r, r !! "ATLAS ID" ≠ Some (Some aid)) l →
  od_get aid d = od_get aid d0.
Proof.
  revert d0. induction l as [|r l IH]; intros d0.
  { by intros [= <-]. }
  rewrite for_each_cons. intros Hd [Hr Hl]%Forall_cons. revert Hd.
  destruct (r !! "ATLAS ID") as [[a|]|] eqn:Ha.
  - rewrite (add_background_row_eq d0 r _ Ha). simpl.
    intros Hd. rewrite (IH _ Hd Hl). rewrite od_get_update.
    rewrite decide_False; [done|]. congruence.
  - rewrite (add_background_row_eq d0 r _ Ha). simpl. intros Hd. by apply IH.
  - unfold add_background_row, getitem. by rewrite Ha.
Qed.

(** The identifiers of the authoritative map are those of the rows of the
    channel table that line 82 lets through, each once and in the order in
    which they first occur; the background table adds none and moves none. *)
Theorem channel_data_keys (channel_df background_df : list pdf_row) d :
  build_channel_data channel_df background_df = Ok d →
  d.*1 = first_occurrences (omap accepted_identifier channel_df).
Proof.
  unfold build_channel_data, channel_pass.
  destruct (for_each add_channel_row channel_df []) as [d1|] eqn:Hd1; simpl; [|done].
  intros Hd. rewrite (background_pass_keys _ _ _ Hd).
  apply (channel_pass_keys _ _ _ Hd1).
Qed.

(** A record takes every field of the last row of the background table
    that carries its identifier, also a field, such as the SCC ID, that the
    channel table had given it. *)
Theorem background_fields_override (channel_df pre post : list pdf_row)
    (b : pdf_row) (aid : string) d (rec : Series) :
  build_channel_data channel_df (pre ++ b :: post) = Ok d →
  b !! "ATLAS ID" = Some (Some aid) →
  Forall (λ r, r !! "ATLAS ID" ≠ Some (Some aid)) post →
  od_get aid d = Some rec →
  ∀ f v, b !! f = Some v → rec !! f = Some (cell_of v).
Proof.
  unfold build_channel_data.
  destruct (channel_pass channel_df) as [d1|]; simpl; [|done].
  rewrite for_each_app.
  destruct (for_each add_background_row pre d1) as [d2|]; simpl; [|done].
  intros Hd Hb Hpost Hrec f v Hf. revert Hd.
  rewrite (add_background_row_eq d2 b (Some aid) Hb). simpl. intros Hd.
  rewrite (background_pass_other _ _ _ aid Hd Hpost) in Hrec.
  rewrite od_get_update, decide_True in Hrec by done.
  destruct (od_get aid d2) as [rec2|]; simpl in Hrec; [|done].
  injection Hrec as <-.
  apply lookup_union_Some_l. unfold to_dict. by rewrite lookup_fmap, Hf.
Qed.

(** ** The section markers *)

Lemma section_index_from_spec (name : string) (lines : list string) (i : nat) found :
  (section_index_from name lines i found = found ∧
   Forall (λ line, strip line ≠ name) lines) ∨
  (∃ k line, section_index_from name lines i found = Some (i + k)%nat ∧
     lines !! k = Some line ∧ strip line = name ∧
     ∀ j line', (k < j)%nat → lines !! j = Some line' → strip line' ≠ name).
Proof.
  revert i found. induction lines as [|l rest IH]; intros i found; simpl.
  - left. split; [done|constructor].
  - destruct (IH (S i) (if decide (strip l = name) then Some i else found))
      as [[Heq Hnone]|(k & line & Heq & Hk & Hline & Hlast)].
    + rewrite Heq. destruct (decide (strip l = name)) as [Hl|Hl].
      * right. exists 0%nat, l. rewrite Nat.add_0_r. split_and!; [done..|].
        intros [|j] line' Hj; [lia|]. simpl. intros Hin.
        by apply (Forall_lookup_1 _ _ _ _ Hnone Hin).
      * left. split; [done|]. by constructor.
    + right. exists (S k), line. rewrite Heq. split_and!; [f_equal; lia|done..|].
      intros [|j] line' Hj; [lia|]. simpl. apply Hlast. lia.
Qed.

(** A section starts at the last line that is its marker once blanks
    around it are dropped; without such a line the section is not found. *)
Theorem section_index_last (name : string) (lines : list string) :
  match section_index name lines with
  | Some i =>
      (∃ line, lines !! i = Some line ∧ strip line = name) ∧
      ∀ j line, (i < j)%nat → lines !! j = Some line → strip line ≠ name
  | None => Forall (λ line, strip line ≠ name) lines
  end.
Proof.
  unfold section_index.
  destruct (section_index_from_spec name lines 0 None)
    as [[-> Hnone]|(k & line & -> & Hk & Hline & Hlast)]; [done|].
  simpl. split; [by exists line | done].
Qed.

(** The channel rows are the lines that are not blank between the header
    of the HoiChannels section and the line before the polarization marker,
    that line excluded: a row written right above the marker, with no
    empty line between, is not read. *)
Theorem channel_rows_come_from (lines : list string) d (row : Series) :
  read_document lines = Ok d →
  (1 ≤ polar_start d)%nat →
  row ∈ records (original_hoi_df d) ↔
  ∃ (k : nat) line,
    (hoi_start d + 2 ≤ k)%nat ∧ (k + 1 < polar_start d)%nat ∧
    lines !! k = Some line ∧ strip line ≠ "" ∧
    row = py_dict (zip (hoi_columns d) (Str <$> split "," (strip line))).
Proof.
  unfold read_document.
  destruct (section_index "HoiChannels" lines) as [hs|]; [|done].
  destruct (section_index "PolarizationCrosstalkParameter" lines) as [ps|]; [|done].
  destruct (list_getitem lines (hs + 1)) as [hoi_header|]; simpl; [|done].
  destruct (list_getitem lines (ps + 1)) as [polar_header|]; simpl; [|done].
  intros [= <-]. simpl. intros Hps.
  unfold data_rows, py_slice.
  destruct (Z.of_nat ps - 1 <? 0)%Z eqn:Hneg; [lia|].
  replace (Z.to_nat (Z.of_nat ps - 1)) with (ps - 1)%nat by lia.
  rewrite list_elem_of_fmap. split.
  - intros (line & -> & [Hne [i Hi]%list_elem_of_lookup]%list_elem_of_filter).
    apply lookup_take_Some in Hi as [Hi Hlt]. rewrite lookup_drop in Hi.
    exists (hs + 2 + i)%nat, line. split_and!; [lia|lia|done..].
  - intros (k & line & Hlow & Hhigh & Hk & Hne & ->).
    exists line. split; [done|]. apply list_elem_of_filter. split; [done|].
    apply list_elem_of_lookup. exists (k - (hs + 2))%nat.
    apply lookup_take_Some. split; [|lia].
    rewrite lookup_drop. by replace (hs + 2 + (k - (hs + 2)))%nat with k by lia.
Qed.

(** ** The matching loop *)

Lemma as_row_lookup (cols : list string) (r : Series) (c : string) :
  c ∈ cols → as_row cols r !! c = Some (cell_at r c).
Proof.
  intros Hc. unfold as_row. apply elem_of_list_to_map_1'.
  - intros y [c' [[= <- ->] _]]%list_elem_of_fmap. done.
  - apply list_elem_of_fmap. by exists c.
Qed.

Lemma possible_matches_inv df used match_mode match_wl found :
  possible_matches df used match_mode match_wl = Ok found →
  "id" ∈ columns df ∧
  found = as_row (columns df) <$>
    filter (is_candidate used match_mode match_wl) (records df).
Proof.
  forget_library.
  unfold possible_matches, column.
  destruct (decide ("_detection_mode_id_id" ∈ columns df)); simpl; [|done].
  destruct (decide ("if_center" ∈ columns df)); simpl; [|done].
  destruct (decide ("id" ∈ columns df)); simpl; [|done].
  intros [= <-]. split; [done|].
  rewrite <- !list_fmap_compose, !zip_with_andb_map.
  unfold iterrows. rewrite select_map_filter.
  f_equal. apply list_filter_iff. intros r. unfold is_candidate, compose.
  rewrite !andb_true_iff, negb_true_iff, bool_decide_eq_false, !bool_decide_eq_true.
  tauto.
Qed.

Lemma possible_matches_spec df used match_mode match_wl :
  "_detection_mode_id_id" ∈ columns df →
  "if_center" ∈ columns df →
  "id" ∈ columns df →
  possible_matches df used match_mode match_wl =
    Ok (as_row (columns df) <$>
          filter (is_candidate used match_mode match_wl) (records df)).
Proof.
  intros H1 H2 H3.
  destruct (possible_matches df used match_mode match_wl) as [found|e] eqn:Hpm.
  - by apply possible_matches_inv in Hpm as [_ ->].
  - unfold possible_matches, column in Hpm.
    rewrite !decide_True in Hpm by done. done.
Qed.

(** What one iteration can do to the state. *)
Lemma match_step_cases df st aid match_ st' :
  match_step df st (aid, match_) = Ok st' →
  (∃ line, st' = add_log st line) ∨
  (∃ i, (i ∉ used_csv_ids st) ∧ st' = matched st aid match_ i).
Proof.
  unfold match_step.
  destruct (parse_atlas_id aid) as [parts|]; simpl; [|done].
  destruct (py_int (wavelength parts)) as [wl|]; [|intros [= <-]; left; by eexists].
  destruct (possible_matches _ _ _ _) as [found|] eqn:Hpm; simpl; [|done].
  apply possible_matches_inv in Hpm as [Hid ->].
  destruct (filter _ _) as [|r cands] eqn:Hf; csimpl.
  { intros [= <-]. left. by eexists. }
  unfold getitem. rewrite as_row_lookup by done. simpl.
  intros [= <-]. right. exists (cell_at r "id"). split; [|done].
  assert (r ∈ filter (is_candidate (used_csv_ids st) (expected_mode parts) wl) (records df))
    as Hr by (rewrite Hf; apply list_elem_of_here).
  apply list_elem_of_filter in Hr as [(_ & _ & Hr) _]. done.
Qed.

Lemma match_step_correspondence_ok df st item st' :
  correspondence_ok st → match_step df st item = Ok st' → correspondence_ok st'.
Proof.
  forget_library.
  destruct item as [aid match_]. intros [Hused Hinj] Hstep.
  apply match_step_cases in Hstep as [[line ->]|(i0 & Hfresh & ->)]; [done|].
  split; simpl.
  - intros a i. rewrite lookup_insert. case_decide.
    + intros [= <-]. set_solver.
    + intros Ha. apply Hused in Ha. set_solver.
  - intros a1 a2 i. rewrite !lookup_insert.
    destruct (decide (aid = a1)) as [<-|?], (decide (aid = a2)) as [<-|?];
      [done| | |by apply Hinj].
    + intros [= <-] Ha. by apply Hused in Ha.
    + intros Ha [= <-]. by apply Hused in Ha.
Qed.

(** C1: after the matching loop no two identifiers are mapped to the same
    existing-row id, and every mapped id is in the used-id set. *)
Theorem correspondence_injective df (channel_data : list (string * Series)) st :
  matching_loop df channel_data = Ok st →
  (∀ a1 a2 i, atlas_to_csv_id st !! a1 = Some i →
              atlas_to_csv_id st !! a2 = Some i → a1 = a2) ∧
  (∀ a i, atlas_to_csv_id st !! a = Some i → i ∈ used_csv_ids st).
Proof.
  intros Hloop.
  cut (correspondence_ok st); [by intros [??]|].
  apply (for_each_invariant (match_step df) correspondence_ok channel_data
           initial_state st); [|split|exact Hloop].
  - intros ???; apply match_step_correspondence_ok.
  - intros a i. simpl. by rewrite lookup_empty.
  - intros a1 a2 i. simpl. by rewrite lookup_empty.
Qed.

Lemma for_each_app_cons {A S} (body : S → A → result S) l1 a l2 s s1 :
  for_each body l1 s = Ok s1 →
  for_each body (l1 ++ a :: l2) s = (s' ← body s1 a; for_each body l2 s').
Proof. intros Hl1. by rewrite for_each_app, Hl1. Qed.

(** One iteration, whatever the record and whatever the table. *)
Lemma match_step_spec df st (aid : string) (match_ : Series) :
  match_step df st (aid, match_) =
    if decide (String.length aid < 7)%nat then Raise IndexError
    else
      match py_int (substring 0 4 aid) with
      | None =>
          Ok {| atlas_to_csv_id := atlas_to_csv_id st;
                used_csv_ids := used_csv_ids st;
                log_lines :=
                  (log_lines st ++
                   [("Skipped invalid ATLAS ID (bad wavelength): " ++ aid)%string])%list;
                matched_data := matched_data st |}
      | Some wl =>
          if decide ("_detection_mode_id_id" ∉ columns df)
          then Raise (KeyError "_detection_mode_id_id")
          else if decide ("if_center" ∉ columns df) then Raise (KeyError "if_center")
          else if decide ("id" ∉ columns df) then Raise (KeyError "id")
          else
            match filter (is_candidate (used_csv_ids st)
                            (if decide (substring 6 1 aid = "a") then "an" else "pc") wl)
                    (records df) with
            | r :: _ =>
                Ok {| atlas_to_csv_id := <[aid := cell_at r "id"]> (atlas_to_csv_id st);
                      used_csv_ids := {[cell_at r "id"]} ∪ used_csv_ids st;
                      log_lines :=
                        (log_lines st ++
                         [("Matched automatically: " ++ aid ++ " → CSV ID: " ++
                           str_of_cell (cell_at r "id"))%string])%list;
                      matched_data := <[cell_at r "id" := match_]> (matched_data st) |}
            | [] =>
                Ok {| atlas_to_csv_id := atlas_to_csv_id st;
                      used_csv_ids := used_csv_ids st;
                      log_lines :=
                        (log_lines st ++ [("Not matched: " ++ aid)%string])%list;
                      matched_data := matched_data st |}
            end
      end.
Proof.
  destruct (decide (String.length aid < 7)%nat) as [Hshort|Hlong].
  { unfold match_step. destruct (parse_atlas_id aid) as [parts|e] eqn:Hparts; simpl.
    - apply parse_atlas_id_ok in Hparts as [Hlen _]. lia.
    - f_equal. by eapply parse_atlas_id_raises. }
  destruct (parse_atlas_id_total aid) as [parts Hparts]; [lia|].
  destruct (parse_atlas_id_fields aid parts Hparts) as [Hw Hm].
  unfold match_step. rewrite Hparts. simpl. rewrite Hw.
  destruct (py_int (substring 0 4 aid)) as [wl|]; [|done].
  unfold expected_mode. rewrite Hm.
  destruct (decide ("_detection_mode_id_id" ∉ columns df)) as [H1|H1].
  { unfold possible_matches, column.
    destruct (decide ("_detection_mode_id_id" ∈ columns df)); [done|reflexivity]. }
  destruct (decide ("if_center" ∉ columns df)) as [H2|H2].
  { unfold possible_matches, column.
    destruct (decide ("_detection_mode_id_id" ∈ columns df)); [|done]. simpl.
    destruct (decide ("if_center" ∈ columns df)); [done|reflexivity]. }
  destruct (decide ("id" ∉ columns df)) as [H3|H3].
  { unfold possible_matches, column.
    destruct (decide ("_detection_mode_id_id" ∈ columns df)); [|done]. simpl.
    destruct (decide ("if_center" ∈ columns df)); [|done]. simpl.
    destruct (decide ("id" ∈ columns df)); [done|reflexivity]. }
  apply dec_stable in H1, H2, H3.
  rewrite possible_matches_spec by done. simpl.
  destruct (filter _ _) as [|r cands]; csimpl; [done|].
  unfold getitem. by rewrite as_row_lookup.
Qed.

(** C2: the turn of a record, whatever the record.  An identifier of fewer
    than seven characters stops the loop with an IndexError, and a
    wavelength prefix that is no integer gets the Skipped line while
    nothing else changes.  Otherwise the candidates are the existing rows,
    in their original order, whose detection mode is "an" when the seventh
    character of the identifier is "a" and "pc" when it is not, whose
    normalized filter centre is the integer prefix and whose id is not in
    the used-id set.  The first candidate is taken: its id joins the
    used-id set, the identifier is mapped to it, the record is stored under
    it and the Matched line is logged.  Without a candidate the Not matched
    line is logged and nothing else changes.  A table that lacks one of the
    three columns the filter reads stops the loop with a KeyError at the
    first record with an integer prefix. *)
Theorem greedy_first_candidate df (before after : list (string * Series))
    (aid : string) (match_ : Series) st :
  matching_loop df before = Ok st →
  matching_loop df (before ++ (aid, match_) :: after) =
    st' ← (if decide (String.length aid < 7)%nat then Raise IndexError
           else
             match py_int (substring 0 4 aid) with
             | None =>
                 Ok {| atlas_to_csv_id := atlas_to_csv_id st;
                       used_csv_ids := used_csv_ids st;
                       log_lines :=
                         (log_lines st ++
                          [("Skipped invalid ATLAS ID (bad wavelength): " ++
                            aid)%string])%list;
                       matched_data := matched_data st |}
             | Some wl =>
                 if decide ("_detection_mode_id_id" ∉ columns df)
                 then Raise (KeyError "_detection_mode_id_id")
                 else if decide ("if_center" ∉ columns df)
                 then Raise (KeyError "if_center")
                 else if decide ("id" ∉ columns df) then Raise (KeyError "id")
                 else
                   match filter (is_candidate (used_csv_ids st)
                                   (if decide (substring 6 1 aid = "a")
                                    then "an" else "pc") wl)
                           (records df) with
                   | r :: _ =>
                       Ok {| atlas_to_csv_id :=
                               <[aid := cell_at r "id"]> (atlas_to_csv_id st);
                             used_csv_ids := {[cell_at r "id"]} ∪ used_csv_ids st;
                             log_lines :=
                               (log_lines st ++
                                [("Matched automatically: " ++ aid ++ " → CSV ID: " ++
                                  str_of_cell (cell_at r "id"))%string])%list;
                             matched_data :=
                               <[cell_at r "id" := match_]> (matched_data st) |}
                   | [] =>
                       Ok {| atlas_to_csv_id := atlas_to_csv_id st;
                             used_csv_ids := used_csv_ids st;
                             log_lines :=
                               (log_lines st ++
                                [("Not matched: " ++ aid)%string])%list;
                             matched_data := matched_data st |}
                   end
             end);
    for_each (match_step df) after st'.
Proof.
  intros Hbefore. unfold matching_loop.
  rewrite (for_each_app_cons _ _ _ _ _ _ Hbefore). by rewrite match_step_spec.
Qed.

(** ** The correspondence and the matched records *)

Lemma od_get_elem {V} (k : string) (v : V) d :
  NoDup d.*1 → (k, v) ∈ d → od_get k d = Some v.
Proof.
  induction d as [|[k0 v0] d IH]; csimpl; [by intros _ ?%elem_of_nil|].
  intros [Hk0 Hd]%NoDup_cons [[= -> ->]|Hin]%elem_of_cons.
  - by rewrite decide_True.
  - rewrite decide_False; [by apply IH|].
    intros ->. apply Hk0, list_elem_of_fmap. by exists (k, v).
Qed.

Lemma matching_records_ok df (all : list (string * Series)) :
  NoDup all.*1 →
  ∀ items before st0 st,
    all = (before ++ items)%list →
    for_each (match_step df) items st0 = Ok st →
    (∀ a, a ∈ items.*1 → atlas_to_csv_id st0 !! a = None) →
    records_ok all st0 → records_ok all st.
Proof.
  intros Hnd. induction items as [|[aid m] items IH]; intros before st0 st Hall.
  { by intros [= <-]. }
  rewrite for_each_cons.
  destruct (match_step df st0 (aid, m)) as [st1|] eqn:Hstep; [|done].
  intros Hloop Hfresh Hinv.
  apply (IH (before ++ [(aid, m)])%list st1); [by rewrite <- app_assoc|done|..].
  - intros a Ha.
    assert (a ≠ aid) as Hne.
    { intros ->. rewrite Hall, fmap_app, fmap_cons in Hnd.
      apply NoDup_app in Hnd as (_ & _ & [Hn _]%NoDup_cons). done. }
    apply match_step_cases in Hstep as [[line ->]|(i & _ & ->)]; simpl.
    + apply Hfresh. csimpl. by apply list_elem_of_further.
    + rewrite lookup_insert_ne by done. apply Hfresh. csimpl. by apply list_elem_of_further.
  - destruct Hinv as (Hok & Hdom & Hrec).
    pose proof (match_step_correspondence_ok _ _ _ _ Hok Hstep) as Hok1.
    split; [done|].
    apply match_step_cases in Hstep as [[line ->]|(i & Hi & ->)]; [done|]. simpl.
    assert (atlas_to_csv_id st0 !! aid = None) as Haid.
    { apply Hfresh. csimpl. apply list_elem_of_here. }
    destruct Hok as [Hused _]. split.
    + intros j. rewrite lookup_insert. case_decide as Hj.
      * subst j. intros _. exists aid. by rewrite lookup_insert_eq.
      * intros [a Ha]%Hdom. exists a. rewrite lookup_insert_ne; [done|].
        intros <-. congruence.
    + intros a j. rewrite lookup_insert. case_decide as Ha.
      * subst a. intros [= <-]. exists m. rewrite lookup_insert_eq. split; [done|].
        apply od_get_elem; [done|]. rewrite Hall.
        apply elem_of_app. right. apply list_elem_of_here.
      * intros Hj. destruct (Hrec a j Hj) as (m' & Hm' & Hget). exists m'.
        split; [|done]. rewrite lookup_insert_ne; [done|].
        intros <-. by apply Hused in Hj.
Qed.

Lemma matching_loop_records_ok df (channel_data : list (string * Series)) st :
  NoDup channel_data.*1 →
  matching_loop df channel_data = Ok st →
  records_ok channel_data st.
Proof.
  intros Hnd Hloop.
  apply (matching_records_ok df channel_data Hnd channel_data [] initial_state st);
    [done|done|by intros; simpl; apply lookup_empty|].
  unfold records_ok, correspondence_ok. simpl.
  split_and!; intros *; rewrite ?lookup_empty; try done; by intros [??].
Qed.

Lemma build_channel_data_NoDup (channel_df background_df : list pdf_row) d :
  build_channel_data channel_df background_df = Ok d → NoDup d.*1.
Proof.
  unfold build_channel_data, channel_pass.
  destruct (for_each add_channel_row channel_df []) as [d1|] eqn:Hd1; simpl; [|done].
  intros Hd.
  apply (for_each_invariant add_background_row (λ d, NoDup d.*1) background_df d1 d);
    [intros ????; by eapply add_background_row_NoDup| |done].
  apply (for_each_invariant add_channel_row (λ d, NoDup d.*1) channel_df [] d1);
    [intros ????; by eapply add_channel_row_NoDup | apply NoDup_nil_2 | done].
Qed.

(** ** What the loop records and when it stops *)

(** One iteration that does not raise, in full. *)
Lemma match_step_inv df st (aid : string) (match_ : Series) st' :
  match_step df st (aid, match_) = Ok st' →
  ∃ parts, parse_atlas_id aid = Ok parts ∧
    ((py_int (wavelength parts) = None ∧
      st' = add_log st ("Skipped invalid ATLAS ID (bad wavelength): " ++ aid)) ∨
     (∃ wl, py_int (wavelength parts) = Some wl ∧
        match filter (is_candidate (used_csv_ids st) (expected_mode parts) wl)
                (records df) with
        | r :: _ => st' = matched st aid match_ (cell_at r "id")
        | [] => st' = add_log st ("Not matched: " ++ aid)
        end)).
Proof.
  unfold match_step.
  destruct (parse_atlas_id aid) as [parts|]; simpl; [|done].
  intros Hstep. exists parts. split; [done|].
  destruct (py_int (wavelength parts)) as [wl|]; [|left; by injection Hstep as <-].
  right. exists wl. split; [done|].
  destruct (possible_matches _ _ _ _) as [found|] eqn:Hpm; simpl in Hstep; [|done].
  apply possible_matches_inv in Hpm as [Hid ->].
  destruct (filter _ _) as [|r cands]; csimpl in Hstep.
  - by injection Hstep as <-.
  - unfold getitem in Hstep. rewrite as_row_lookup in Hstep by done.
    simpl in Hstep. by injection Hstep as <-.
Qed.

(** The correspondence is sound: an identifier is only ever mapped to the
    id of an existing row that has the detection mode its mode character
    asks for and whose filter centre rounds to its wavelength prefix. *)
Theorem matched_row_fits df (channel_data : list (string * Series)) st
    (aid : string) (i : cell) :
  matching_loop df channel_data = Ok st →
  atlas_to_csv_id st !! aid = Some i →
  ∃ parts wl row,
    parse_atlas_id aid = Ok parts ∧
    py_int (wavelength parts) = Some wl ∧
    row ∈ records df ∧
    cell_at row "id" = i ∧
    cell_at row "_detection_mode_id_id" = Str (expected_mode parts) ∧
    normalize_wavelength (cell_at row "if_center") = Some wl.
Proof.
  intros Hloop. revert aid i.
  apply (for_each_invariant (match_step df)
           (λ st, ∀ (aid : string) (i : cell), atlas_to_csv_id st !! aid = Some i →
              ∃ parts wl row,
                parse_atlas_id aid = Ok parts ∧
                py_int (wavelength parts) = Some wl ∧
                row ∈ records df ∧
                cell_at row "id" = i ∧
                cell_at row "_detection_mode_id_id" = Str (expected_mode parts) ∧
                normalize_wavelength (cell_at row "if_center") = Some wl)
           channel_data initial_state st); [| |exact Hloop].
  - intros st0 [a m] st1 Hinv Hstep aid i.
    apply match_step_inv in Hstep as (parts & Hparts & [[_ ->]|(wl & Hwl & Hst1)]);
      [apply Hinv|].
    destruct (filter _ _) as [|r cands] eqn:Hf; subst st1; [apply Hinv|]. simpl.
    rewrite lookup_insert. case_decide as Ha; [|apply Hinv]. subst a.
    intros [= <-].
    assert (r ∈ filter (is_candidate (used_csv_ids st0) (expected_mode parts) wl)
              (records df)) as Hr by (rewrite Hf; apply list_elem_of_here).
    apply list_elem_of_filter in Hr as [(Hmode & Hwave & _) Hin].
    by exists parts, wl, r.
  - intros aid i. simpl. by rewrite lookup_empty.
Qed.

Lemma log_invariant df (items before : list (string * Series)) st0 st :
  NoDup (before ++ items)%list.*1 →
  for_each (match_step df) items st0 = Ok st →
  (List.length (log_lines st0) = List.length before ∧
   (∀ a, a ∉ before.*1 → atlas_to_csv_id st0 !! a = None) ∧
   ∀ (k : nat) aid m, before !! k = Some (aid, m) →
     log_lines st0 !! k = Some (expected_log_line st0 aid)) →
  List.length (log_lines st) = List.length (before ++ items)%list ∧
  (∀ a, a ∉ (before ++ items)%list.*1 → atlas_to_csv_id st !! a = None) ∧
  ∀ (k : nat) aid m, (before ++ items)%list !! k = Some (aid, m) →
    log_lines st !! k = Some (expected_log_line st aid).
Proof.
  forget_library.
  revert before st0. induction items as [|[aid m] items IH]; intros before st0 Hnd.
  { rewrite app_nil_r. by intros [= <-]. }
  rewrite for_each_cons.
  destruct (match_step df st0 (aid, m)) as [st1|] eqn:Hstep; simpl; [|done].
  intros Hloop (Hlen & Hnone & Hlog).
  replace (before ++ (aid, m) :: items)%list
    with ((before ++ [(aid, m)]) ++ items)%list in * by (by rewrite <- app_assoc).
  apply (IH _ st1 Hnd Hloop). clear IH Hloop.
  assert (aid ∉ before.*1) as Hfresh.
  { rewrite !fmap_app in Hnd. apply NoDup_app in Hnd as [Hnd _].
    apply NoDup_app in Hnd as (_ & Hdisj & _).
    intros Hin. apply (Hdisj _ Hin). csimpl. apply list_elem_of_here. }
  pose proof (Hnone _ Hfresh) as Haid.
  assert (∀ a, a ∉ (before ++ [(aid, m)])%list.*1 → a ≠ aid ∧ a ∉ before.*1) as Hsplit.
  { intros a. rewrite fmap_app, elem_of_app. csimpl.
    rewrite list_elem_of_singleton. tauto. }
  assert (∀ (k : nat) a m', before !! k = Some (a, m') → a ≠ aid) as Hold.
  { intros k a m' Hk ->. apply Hfresh. apply list_elem_of_fmap.
    exists (aid, m'). split; [done|]. by eapply list_elem_of_lookup_2. }
  apply match_step_inv in Hstep as (parts & Hparts & Hcases).
  apply parse_atlas_id_ok in Hparts as [_ Hw]. rewrite Hw in Hcases.
  assert ((atlas_to_csv_id st1 = atlas_to_csv_id st0 ∧
           log_lines st1 = (log_lines st0 ++ [expected_log_line st0 aid])%list) ∨
          (∃ id : cell, atlas_to_csv_id st1 = <[aid := id]> (atlas_to_csv_id st0) ∧
             log_lines st1 = (log_lines st0 ++
               [("Matched automatically: " ++ aid ++ " → CSV ID: " ++
                 str_of_cell id)%string])%list))
    as [[Hatlas Hlines]|(id & Hatlas & Hlines)].
  { unfold expected_log_line. rewrite Haid.
    destruct Hcases as [[Hint ->]|(wl & Hint & Hst1)]; rewrite Hint.
    - by left.
    - destruct (filter _ _) as [|r cands]; subst st1; [by left|].
      right. by exists (cell_at r "id"). }
  - rewrite Hlines, Hatlas. split_and!.
    + rewrite !length_app, Hlen. done.
    + intros a [_ Ha]%Hsplit. by apply Hnone.
    + intros k a m' [[Hk Hin]|[-> [= <- <-]]]%lookup_snoc_Some.
      * rewrite lookup_app_l by lia. rewrite (Hlog _ _ _ Hin).
        unfold expected_log_line. by rewrite Hatlas.
      * rewrite <- Hlen, lookup_app_r, Nat.sub_diag by lia. simpl.
        unfold expected_log_line. by rewrite Hatlas.
  - rewrite Hlines, Hatlas. split_and!.
    + rewrite !length_app, Hlen. done.
    + intros a [Hne Ha]%Hsplit. rewrite lookup_insert_ne by done. by apply Hnone.
    + intros k a m' [[Hk Hin]|[-> [= <- <-]]]%lookup_snoc_Some.
      * rewrite lookup_app_l by lia. rewrite (Hlog _ _ _ Hin).
        unfold expected_log_line. rewrite Hatlas.
        rewrite lookup_insert_ne; [done|]. intros <-. by eapply Hold.
      * rewrite <- Hlen, lookup_app_r, Nat.sub_diag by lia. simpl.
        unfold expected_log_line. by rewrite Hatlas, lookup_insert_eq.
Qed.

(** The log is a faithful account of the correspondence: it has one line
    for each record of the authoritative map, in the order of the map, and
    the line of an identifier is the Matched line with the id it is mapped
    to, or else the Not matched line when its wavelength prefix is an
    integer and the Skipped line when it is not. *)
Theorem log_tells_the_correspondence df (channel_data : list (string * Series)) st :
  NoDup channel_data.*1 →
  matching_loop df channel_data = Ok st →
  List.length (log_lines st) = List.length channel_data ∧
  ∀ (k : nat) aid m, channel_data !! k = Some (aid, m) →
    log_lines st !! k = Some (expected_log_line st aid).
Proof.
  intros Hnd Hloop.
  destruct (log_invariant df channel_data [] initial_state st Hnd Hloop)
    as (Hlen & _ & Hlog); [|done].
  split_and!; [done|done|]. intros k aid m Hk. by rewrite lookup_nil in Hk.
Qed.

Lemma match_step_raises df st (item : string * Series) e :
  "_detection_mode_id_id" ∈ columns df →
  "if_center" ∈ columns df →
  "id" ∈ columns df →
  match_step df st item = Raise e → e = IndexError.
Proof.
  intros H1 H2 H3. destruct item as [aid m]. unfold match_step.
  destruct (parse_atlas_id aid) as [parts|e'] eqn:Hparts; simpl.
  - destruct (py_int (wavelength parts)); [|done].
    rewrite possible_matches_spec by done. simpl.
    destruct (filter _ _) as [|r cands]; csimpl; [done|].
    unfold getitem. by rewrite as_row_lookup.
  - intros [= <-]. by eapply parse_atlas_id_raises.
Qed.

Lemma matching_loop_short_identifier df (items : list (string * Series)) st :
  "_detection_mode_id_id" ∈ columns df →
  "if_center" ∈ columns df →
  "id" ∈ columns df →
  Exists (λ item, (String.length item.1 < 7)%nat) items →
  for_each (match_step df) items st = Raise IndexError.
Proof.
  intros H1 H2 H3 Hex. revert st.
  induction items as [|item items IH]; intros st; [by apply Exists_nil in Hex|].
  rewrite for_each_cons.
  destruct (match_step df st item) as [st1|e] eqn:Hstep; simpl.
  - apply Exists_cons in Hex as [Hshort|Hex]; [|by apply IH].
    destruct item as [aid m].
    apply match_step_inv in Hstep as (parts & [Hlen _]%parse_atlas_id_ok & _).
    simpl in Hshort. lia.
  - f_equal. by eapply match_step_raises.
Qed.

(** An identifier of fewer than seven characters in the authoritative map
    stops the run with an IndexError before any file is written: line 82
    lets such a cell of the channel table through. *)
Theorem short_identifier_aborts_run io inp data d :
  build_channel_data (channel_df inp) (background_df inp) = Ok data →
  read_document (lines inp) = Ok d →
  "_detection_mode_id_id" ∈ columns (original_hoi_df d) →
  "if_center" ∈ columns (original_hoi_df d) →
  "id" ∈ columns (original_hoi_df d) →
  Exists (λ item, (String.length item.1 < 7)%nat) data →
  run io inp =
    {| output_file := None; log_file := None; console := [];
       status := Raise IndexError |}.
Proof.
  intros Hdata Hdoc H1 H2 H3 Hex.
  unfold run, prepare. rewrite Hdata. simpl. rewrite Hdoc. simpl.
  unfold matching_loop. by rewrite matching_loop_short_identifier.
Qed.

Lemma py_dict_keys (pairs : list (string * cell)) (d0 : Series) (c : string) :
  is_Some (foldl (λ d kv, <[kv.1 := kv.2]> d) d0 pairs !! c) →
  is_Some (d0 !! c) ∨ c ∈ pairs.*1.
Proof.
  revert d0. induction pairs as [|[k v] pairs IH]; intros d0; simpl; [by left|].
  intros [Hc|Hc]%IH.
  - rewrite lookup_insert_is_Some in Hc. destruct Hc as [<-|[_ Hc]]; [|by left].
    right. csimpl. apply list_elem_of_here.
  - right. csimpl. by apply list_elem_of_further.
Qed.

(** The columns of the table of existing rows are columns of the header
    line, and there is none when the section has no data line. *)
Lemma read_document_columns (lines : list string) d (c : string) :
  read_document lines = Ok d →
  c ∈ columns (original_hoi_df d) →
  records (original_hoi_df d) ≠ [] ∧ c ∈ hoi_columns d.
Proof.
  unfold read_document.
  destruct (section_index "HoiChannels" lines) as [hs|]; [|done].
  destruct (section_index "PolarizationCrosstalkParameter" lines) as [ps|]; [|done].
  destruct (list_getitem lines (hs + 1)) as [hoi_header|]; simpl; [|done].
  destruct (list_getitem lines (ps + 1)) as [polar_header|]; simpl; [|done].
  intros [= <-]. simpl.
  rewrite elem_of_elements, elem_of_union_list.
  intros (X & [row [-> Hrow]]%list_elem_of_fmap & Hc).
  split; [by intros Heq; rewrite Heq in Hrow; apply elem_of_nil in Hrow|].
  unfold data_rows in Hrow.
  apply list_elem_of_fmap in Hrow as (line & -> & _).
  apply elem_of_dom in Hc. unfold py_dict in Hc.
  apply py_dict_keys in Hc as [Hc|Hc].
  - rewrite lookup_empty in Hc. by destruct Hc.
  - apply list_elem_of_fmap in Hc as ([c' v] & -> & Hin). simpl.
    by apply elem_of_zip_l in Hin.
Qed.

Lemma match_step_missing_column df st (aid : string) (m : Series) :
  "_detection_mode_id_id" ∉ columns df →
  (7 ≤ String.length aid)%nat →
  match_step df st (aid, m) =
    match py_int (substring 0 4 aid) with
    | Some _ => Raise (KeyError "_detection_mode_id_id")
    | None => Ok (add_log st ("Skipped invalid ATLAS ID (bad wavelength): " ++ aid))
    end.
Proof.
  intros Hcol Haid. unfold match_step.
  destruct (parse_atlas_id_total aid Haid) as [parts Hparts]. rewrite Hparts. simpl.
  apply parse_atlas_id_ok in Hparts as [_ Hw]. rewrite Hw.
  destruct (py_int (substring 0 4 aid)) as [wl|]; [|done].
  unfold possible_matches, column.
  destruct (decide ("_detection_mode_id_id" ∈ columns df)); [done|reflexivity].
Qed.

Lemma matching_loop_missing_column df (items : list (string * Series)) st :
  "_detection_mode_id_id" ∉ columns df →
  Forall (λ item, (7 ≤ String.length item.1)%nat) items →
  Exists (λ item, is_Some (py_int (substring 0 4 item.1))) items →
  for_each (match_step df) items st = Raise (KeyError "_detection_mode_id_id").
Proof.
  intros Hcol Hlen Hex. revert st.
  induction items as [|[aid m] items IH]; intros st; [by apply Exists_nil in Hex|].
  apply Forall_cons in Hlen as [Haid Hlen]. simpl in Haid.
  rewrite for_each_cons, match_step_missing_column by done.
  destruct (py_int (substring 0 4 aid)) as [wl|] eqn:Hint; [done|].
  simpl. apply IH; [done|].
  apply Exists_cons in Hex as [Hhere|Hex]; [|done].
  simpl in Hhere. rewrite Hint in Hhere. by destruct Hhere.
Qed.

(** When the HoiChannels section has no data line, or its header has no
    detection-mode column, the table of existing rows has no such column,
    and the first record with an integer wavelength prefix stops the run
    with a KeyError; nothing is written. *)
Theorem missing_mode_column_aborts_run io inp data d :
  build_channel_data (channel_df inp) (background_df inp) = Ok data →
  read_document (lines inp) = Ok d →
  records (original_hoi_df d) = [] ∨ "_detection_mode_id_id" ∉ hoi_columns d →
  Forall (λ item, (7 ≤ String.length item.1)%nat) data →
  Exists (λ item, is_Some (py_int (substring 0 4 item.1))) data →
  run io inp =
    {| output_file := None; log_file := None; console := [];
       status := Raise (KeyError "_detection_mode_id_id") |}.
Proof.
  intros Hdata Hdoc Hmissing Hlen Hex.
  assert ("_detection_mode_id_id" ∉ columns (original_hoi_df d)) as Hcol.
  { intros [Hrows Hc]%(read_document_columns _ _ _ Hdoc).
    destruct Hmissing; done. }
  unfold run, prepare. rewrite Hdata. simpl. rewrite Hdoc. simpl.
  unfold matching_loop. by rewrite matching_loop_missing_column.
Qed.

(** ** The row merger *)

Lemma for_each_collect {A B} (f : A → result B) (l : list A) (acc res : list B) :
  for_each (λ acc a, b ← f a; Ok (acc ++ [b])%list) l acc = Ok res →
  ∃ l', res = (acc ++ l')%list ∧ Forall2 (λ a b, f a = Ok b) l l'.
Proof.
  revert acc. induction l as [|a l IH]; intros acc; simpl.
  - intros [= <-]. exists []. by rewrite app_nil_r.
  - destruct (f a) as [b|] eqn:Hfa; simpl; [|done].
    intros (l' & -> & Hl')%IH. exists (b :: l'). rewrite <- app_assoc.
    split; [done|]. by constructor.
Qed.

Lemma updated_rows_lookup matched_data df rows' (i : nat) (row : Series) :
  updated_rows matched_data df = Ok rows' →
  iterrows df !! i = Some row →
  ∃ row', rows' !! i = Some row' ∧ update_row matched_data row = Ok row'.
Proof.
  intros (l' & -> & Hl')%for_each_collect Hrow. simpl.
  destruct (Forall2_lookup_l _ _ _ _ _ Hl' Hrow) as (row' & ? & ?). by exists row'.
Qed.

Lemma update_row_id matched_data (row row' : Series) :
  update_row matched_data row = Ok row' → row !! "id" = Some (cell_at row "id").
Proof.
  unfold update_row, getitem, cell_at, dict_get.
  by destruct (row !! "id").
Qed.

Lemma reindex_lookup (cols : list string) (rows : list Series) (i : nat) (row : Series) :
  rows !! i = Some row →
  reindex cols rows !! i = Some ((λ c, cell_at row c) <$> cols).
Proof. intros Hrow. unfold reindex. by rewrite list_lookup_fmap, Hrow. Qed.

Lemma prepare_inv inp p :
  prepare inp = Ok p →
  ∃ rows polar,
    build_channel_data (channel_df inp) (background_df inp) = Ok (channel_data p) ∧
    read_document (lines inp) = Ok (doc p) ∧
    matching_loop (original_hoi_df (doc p)) (channel_data p) = Ok (state p) ∧
    updated_rows (matched_data (state p)) (original_hoi_df (doc p)) = Ok rows ∧
    polar_df_clean (polar_columns (doc p))
      (polar_updates (channel_data p) (atlas_to_csv_id (state p))
         (polar_columns (doc p)) (depol_date inp)) = Ok polar ∧
    final_columns p = extend_columns (hoi_columns (doc p)) ∧
    updated_hoi_df p = reindex (final_columns p) rows ∧
    polar_clean p = reindex (polar_columns (doc p)) polar.
Proof.
  unfold prepare.
  destruct (build_channel_data _ _) as [data|] eqn:?; simpl; [|done].
  destruct (read_document _) as [d|] eqn:?; simpl; [|done].
  destruct (matching_loop _ _) as [st|] eqn:?; simpl; [|done].
  destruct (updated_rows _ _) as [rows|] eqn:?; simpl; [|done].
  destruct (polar_df_clean _ _) as [polar|] eqn:?; simpl; [|done].
  intros [= <-]. simpl. exists rows, polar. by split_and!.
Qed.

(** C4: a row of the HoiChannels section whose id is no target of the
    correspondence comes out with every field as it went in; the columns of
    the output are the original ones, followed by the two height columns
    when the section did not have them. *)
Theorem non_destructive_merge inp p (i : nat) (row : Series) :
  prepare inp = Ok p →
  iterrows (original_hoi_df (doc p)) !! i = Some row →
  (∀ aid, atlas_to_csv_id (state p) !! aid ≠ Some (cell_at row "id")) →
  ∃ extra,
    final_columns p = (hoi_columns (doc p) ++ extra)%list ∧
    updated_hoi_df p !! i =
      Some (((λ c, cell_at row c) <$> hoi_columns (doc p)) ++
            ((λ c, cell_at row c) <$> extra))%list.
Proof.
  intros (rows & polar & Hdata & _ & Hloop & Hrows & _ & Hcols & Hout & _)%prepare_inv
    Hrow Hfree.
  destruct (updated_rows_lookup _ _ _ _ _ Hrows Hrow) as (row' & Hrow' & Hupd).
  pose proof (update_row_id _ _ _ Hupd) as Hid.
  assert (row' = row) as ->.
  { unfold update_row, getitem in Hupd. rewrite Hid in Hupd. simpl in Hupd.
    destruct (matched_data (state p) !! cell_at row "id") as [m|] eqn:Hm;
      [|by injection Hupd].
    apply build_channel_data_NoDup in Hdata.
    destruct (matching_loop_records_ok _ _ _ Hdata Hloop) as (_ & Hdom & _).
    destruct (Hdom (cell_at row "id")) as [a Ha]; [by eexists|].
    by apply Hfree in Ha. }
  exists (if decide ("_Minimum_channel_height_" ∈ hoi_columns (doc p)) then []
          else ["_Minimum_channel_height_"; "_Maximum_channel_height_"]).
  assert (final_columns p = (hoi_columns (doc p) ++
    (if decide ("_Minimum_channel_height_" ∈ hoi_columns (doc p)) then []
     else ["_Minimum_channel_height_"; "_Maximum_channel_height_"]))%list) as Hfinal.
  { rewrite Hcols. unfold extend_columns. case_decide; [by rewrite app_nil_r|done]. }
  split; [done|].
  rewrite Hout, (reindex_lookup _ _ _ _ Hrow'). f_equal.
  by rewrite Hfinal, fmap_app.
Qed.

Lemma merge_fields_spec (match_ row : Series) :
  (∀ f F, (f, F) ∈ overwritten_fields →
     merge_fields match_ row !! f = Some (dict_get match_ F (dict_get row f (Str "")))) ∧
  merge_fields match_ row !! "_background_mode_id_id" =
    Some (if decide (match_ !! "Background Mode" = Some (Str "Pre-Trigger"))
          then Int 0 else Int 1) ∧
  (∀ f F, (f, F) ∈ height_fields →
     merge_fields match_ row !! f = Some (dict_get match_ F (Str ""))) ∧
  (∀ f, f ∉ designated_fields → merge_fields match_ row !! f = row !! f).
Proof.
  unfold merge_fields. split_and!.
  - intros f F Hf. unfold overwritten_fields in Hf.
    repeat (apply elem_of_cons in Hf as [[= -> ->]|Hf]);
      [..|by apply elem_of_nil in Hf];
      unfold dict_get; by simplify_map_eq.
  - by simplify_map_eq.
  - intros f F Hf. unfold height_fields in Hf.
    repeat (apply elem_of_cons in Hf as [[= -> ->]|Hf]);
      [..|by apply elem_of_nil in Hf]; by simplify_map_eq.
  - intros f Hf. unfold designated_fields in Hf. csimpl in Hf.
    repeat (apply not_elem_of_cons in Hf as [? Hf]).
    by rewrite !lookup_insert_ne by done.
Qed.

(** C5, with the fallback as the code has it: a row whose id is the target of an identifier comes
    out with the designated fields rewritten from that identifier's record
    and every other field as it went in.  Each of the six measured fields
    takes the record's entry whenever the record has the key, be the entry
    text or missing, and the row's own value (empty text when the row has
    none) only when the record lacks the key; the two height fields take the
    record's entry, or empty text when the record lacks the key; the
    background-mode flag is 0 when the record's background mode is the text
    Pre-Trigger and 1 otherwise. *)
Theorem merge_field_rule inp p (i : nat) (row : Series) (aid : string) :
  prepare inp = Ok p →
  iterrows (original_hoi_df (doc p)) !! i = Some row →
  atlas_to_csv_id (state p) !! aid = Some (cell_at row "id") →
  ∃ match_ row',
    od_get aid (channel_data p) = Some match_ ∧
    updated_hoi_df p !! i = Some ((λ c, cell_at row' c) <$> final_columns p) ∧
    (∀ f F, (f, F) ∈ overwritten_fields →
       row' !! f = Some (dict_get match_ F (dict_get row f (Str "")))) ∧
    row' !! "_background_mode_id_id" =
      Some (if decide (match_ !! "Background Mode" = Some (Str "Pre-Trigger"))
            then Int 0 else Int 1) ∧
    (∀ f F, (f, F) ∈ height_fields → row' !! f = Some (dict_get match_ F (Str ""))) ∧
    (∀ f, f ∉ designated_fields → row' !! f = row !! f).
Proof.
  intros (rows & polar & Hdata & _ & Hloop & Hrows & _ & _ & Hout & _)%prepare_inv
    Hrow Haid.
  destruct (updated_rows_lookup _ _ _ _ _ Hrows Hrow) as (row' & Hrow' & Hupd).
  pose proof (update_row_id _ _ _ Hupd) as Hid.
  apply build_channel_data_NoDup in Hdata.
  destruct (matching_loop_records_ok _ _ _ Hdata Hloop) as (_ & _ & Hrec).
  destruct (Hrec _ _ Haid) as (m & Hm & Hget).
  unfold update_row, getitem in Hupd. rewrite Hid in Hupd. simpl in Hupd.
  rewrite Hm in Hupd. injection Hupd as <-.
  exists m, (merge_fields m row). split; [done|].
  split; [by rewrite Hout, (reindex_lookup _ _ _ _ Hrow')|].
  apply merge_fields_spec.
Qed.

(** Applying a record to a row that has already received it changes
    nothing: the nine assignments of lines 147-155 are idempotent. *)
Theorem merge_fields_idempotent (match_ row : Series) :
  merge_fields match_ (merge_fields match_ row) = merge_fields match_ row.
Proof.
  destruct (merge_fields_spec match_ row) as (H1 & H2 & H3 & H4).
  destruct (merge_fields_spec match_ (merge_fields match_ row)) as (G1 & G2 & G3 & G4).
  apply map_eq. intros f.
  destruct (decide (f ∈ designated_fields)) as [Hf|Hf]; [|by apply G4].
  assert (∀ F, (f, F) ∈ overwritten_fields →
            merge_fields match_ (merge_fields match_ row) !! f =
            merge_fields match_ row !! f) as Hover.
  { intros F HF.
    assert (dict_get (merge_fields match_ row) f (Str "") =
              dict_get match_ F (dict_get row f (Str ""))) as Hd
      by (unfold dict_get at 1; by rewrite (H1 f F HF)).
    rewrite (G1 f F HF), Hd, (H1 f F HF). f_equal.
    unfold dict_get. by destruct (match_ !! F). }
  assert (∀ F, (f, F) ∈ height_fields →
            merge_fields match_ (merge_fields match_ row) !! f =
            merge_fields match_ row !! f) as Hheight.
  { intros F HF. by rewrite (G3 f F HF), (H3 f F HF). }
  unfold designated_fields in Hf. csimpl in Hf.
  repeat (apply elem_of_cons in Hf as [->|Hf]); [..|by apply elem_of_nil in Hf].
  - apply (Hover "Interference filter center"). by apply (bool_decide_unpack _).
  - apply (Hover "Interference filter FWHM"). by apply (bool_decide_unpack _).
  - apply (Hover "Emission Wavelength"). by apply (bool_decide_unpack _).
  - apply (Hover "Dead time"). by apply (bool_decide_unpack _).
  - apply (Hover "First signal rangebin"). by apply (bool_decide_unpack _).
  - apply (Hover "Trigger delay"). by apply (bool_decide_unpack _).
  - by rewrite G2, H2.
  - apply (Hheight "Minimum channel height"). by apply (bool_decide_unpack _).
  - apply (Hheight "Maximum channel height"). by apply (bool_decide_unpack _).
Qed.

(** The merge keeps the rows, their order and their ids: the output has
    one row for each row of the HoiChannels section, at the same position
    and with the same id. *)
Theorem merge_keeps_rows_and_ids inp p :
  prepare inp = Ok p →
  List.length (updated_hoi_df p) = List.length (iterrows (original_hoi_df (doc p))) ∧
  ∀ (i : nat) (row : Series),
    iterrows (original_hoi_df (doc p)) !! i = Some row →
    ∃ row', updated_hoi_df p !! i = Some ((λ c, cell_at row' c) <$> final_columns p) ∧
            cell_at row' "id" = cell_at row "id".
Proof.
  intros (rows & polar & _ & _ & _ & Hrows & _ & _ & Hout & _)%prepare_inv. split.
  - rewrite Hout. unfold reindex. rewrite length_fmap.
    apply for_each_collect in Hrows as (l' & -> & Hl'). simpl.
    symmetry. by eapply Forall2_length.
  - intros i row Hrow.
    destruct (updated_rows_lookup _ _ _ _ _ Hrows Hrow) as (row' & Hrow' & Hupd).
    exists row'. split; [rewrite Hout; by apply reindex_lookup|].
    unfold update_row in Hupd. destruct (getitem row "id") as [cid|]; simpl in Hupd; [|done].
    destruct (matched_data (state p) !! cid) as [m|]; injection Hupd as <-; [|done].
    unfold cell_at, dict_get.
    destruct (merge_fields_spec m row) as (_ & _ & _ & Hother).
    rewrite Hother; [done|]. unfold designated_fields. csimpl.
    by apply (bool_decide_unpack _).
Qed.

(** ** The polarization section *)

Lemma polar_updates_filter (data : list (string * Series)) atlas cols date :
  polar_updates data atlas cols date =
    (λ item, polar_entry cols (default NA (atlas !! item.1))
               (dict_get item.2 "G" NA) (dict_get item.2 "H" NA) date) <$>
      filter (has_calibration atlas) data.
Proof.
  induction data as [|[aid m] data IH]; [done|].
  rewrite filter_cons. simpl. rewrite IH.
  destruct (decide (has_calibration atlas (aid, m))) as [([cid Hcid] & HG & HH)|Hn];
    simpl in *.
  - rewrite Hcid, HG, HH. csimpl. by rewrite ?Hcid.
  - destruct (atlas !! aid) as [cid|] eqn:Hcid; [|done].
    destruct (notna (dict_get m "G" NA)) eqn:HG, (notna (dict_get m "H" NA)) eqn:HH;
      simpl; try done.
    destruct Hn. unfold has_calibration. simpl. rewrite Hcid. by split_and!.
Qed.

Lemma polar_entry_cell cols cid g h date (c : string) :
  c ∈ cols → cell_at (polar_entry cols cid g h date) c = polar_cell cid g h date c.
Proof.
  intros Hc. unfold cell_at, dict_get, polar_entry, polar_cell.
  rewrite !lookup_insert. repeat case_decide; try congruence.
  rewrite (elem_of_list_to_map_1' _ c (Str "")); [done| |].
  - by intros y [c' [[= <- ->] _]]%list_elem_of_fmap.
  - apply list_elem_of_fmap. by exists c.
Qed.

Lemma cell_at_as_row (cols : list string) (r : Series) (c : string) :
  c ∈ cols → cell_at (as_row cols r) c = cell_at r c.
Proof. intros Hc. unfold cell_at at 1, dict_get. by rewrite as_row_lookup. Qed.

Lemma polar_df_clean_inv cols (updates polar : list Series) :
  polar_df_clean cols updates = Ok polar →
  "g" ∈ cols ∧ "h" ∈ cols ∧
  polar = as_row cols <$>
    filter (λ r, notna (cell_at r "g") && notna (cell_at r "h") = true) updates.
Proof.
  unfold polar_df_clean, column. simpl.
  destruct (decide ("g" ∈ cols)); simpl; [|done].
  destruct (decide ("h" ∈ cols)); simpl; [|done].
  intros [= <-]. split_and!; [done..|].
  rewrite <- !list_fmap_compose, zip_with_andb_map.
  unfold iterrows. simpl. by rewrite select_map_filter.
Qed.

Lemma filter_all {A} (P : A → Prop) `{!∀ x, Decision (P x)} (l : list A) :
  Forall P l → filter P l = l.
Proof.
  induction 1 as [|x l Hx _ IH]; [done|].
  rewrite filter_cons, decide_True by done. by f_equal.
Qed.

Lemma cleanup_filter_spec (df : parsed) kept :
  cleanup_filter df = Ok kept →
  ∃ j, list_index "g" (p_columns df) = Some j ∧
       kept = filter (λ r, keeps_g (default VNaN (r !! j)) = true) (p_rows df).
Proof.
  unfold cleanup_filter, parsed_column.
  destruct (list_index "g" (p_columns df)) as [j|]; simpl; [|done].
  intros [= <-]. exists j. split; [done|].
  rewrite <- list_fmap_compose.
  rewrite <- (list_fmap_id (p_rows df)) at 2.
  rewrite select_map_filter. by rewrite list_fmap_id.
Qed.

(** C3, with the filters as the code has them: the polarization rows handed to the assembler are, in
    the order of the authoritative map, one row for each record that matched
    and whose G and H are not missing, and no other row; its g and h cells
    are the record's G and H, not missing but possibly empty text.  The
    cleanup pass keeps a parsed row exactly when its g is present and not
    blank; it does not look at h. *)
Theorem polarization_rows inp p :
  prepare inp = Ok p →
  "g" ∈ polar_columns (doc p) ∧
  "h" ∈ polar_columns (doc p) ∧
  polar_clean p =
    (λ item,
       polar_cell (default NA (atlas_to_csv_id (state p) !! item.1))
         (dict_get item.2 "G" NA) (dict_get item.2 "H" NA) (depol_date inp)
       <$> polar_columns (doc p)) <$>
      filter (has_calibration (atlas_to_csv_id (state p))) (channel_data p) ∧
  ∀ (df : parsed) kept,
    cleanup_filter df = Ok kept →
    ∃ j, list_index "g" (p_columns df) = Some j ∧
         kept = filter (λ r, keeps_g (default VNaN (r !! j)) = true) (p_rows df).
Proof.
  intros (rows & polar & _ & _ & _ & _ & Hpolar & _ & _ & Hout)%prepare_inv.
  apply polar_df_clean_inv in Hpolar as (Hg & Hh & ->).
  split_and!; [done..| |apply cleanup_filter_spec].
  rewrite Hout, polar_updates_filter.
  rewrite filter_all.
  - unfold reindex. rewrite <- !list_fmap_compose.
    apply list_fmap_ext. intros _ item _. simpl.
    apply list_fmap_ext. intros k c Hc%list_elem_of_lookup_2.
    by rewrite cell_at_as_row, polar_entry_cell.
  - apply Forall_fmap, Forall_forall. intros item [(_ & HG & HH) _]%list_elem_of_filter.
    simpl. rewrite !polar_entry_cell by done. unfold polar_cell. simpl.
    by rewrite HG, HH.
Qed.

(** No channel gets two polarization rows: the cells under channel_id of
    the rows handed to the assembler are pairwise distinct. *)
Theorem polarization_channels_distinct inp p (j : nat) :
  prepare inp = Ok p →
  polar_columns (doc p) !! j = Some "channel_id" →
  NoDup ((λ row : list cell, default NA (row !! j)) <$> polar_clean p).
Proof.
  intros (rows & polar & Hdata & _ & Hloop & _ & Hpolar & _ & _ & Hclean)%prepare_inv Hj.
  apply polar_df_clean_inv in Hpolar as (_ & _ & ->).
  rewrite polar_updates_filter in Hclean.
  pose proof (list_elem_of_lookup_2 _ _ _ Hj) as Hcol.
  apply build_channel_data_NoDup in Hdata.
  destruct (matching_loop_records_ok _ _ _ Hdata Hloop) as ([_ Hinj] & _ & _).
  rewrite Hclean. unfold reindex. rewrite <- !list_fmap_compose.
  set (cols := polar_columns (doc p)) in *.
  set (atlas := atlas_to_csv_id (state p)) in *.
  set (entry := λ item : string * Series,
         polar_entry cols (default NA (atlas !! item.1))
           (dict_get item.2 "G" NA) (dict_get item.2 "H" NA) (depol_date inp)).
  assert (∀ r : Series,
            ((λ row : list cell, default NA (row !! j)) ∘
             (λ r, (λ c, cell_at r c) <$> cols) ∘ as_row cols) r = cell_at r "channel_id")
    as Hcell.
  { intros r. unfold compose. rewrite list_lookup_fmap, Hj. simpl.
    by apply cell_at_as_row. }
  rewrite (list_fmap_ext _ (λ r : Series, cell_at r "channel_id") _ (λ _ r _, Hcell r)).
  eapply sublist_NoDup; [|apply fmap_sublist, sublist_filter].
  rewrite <- list_fmap_compose.
  apply NoDup_fmap_2_strong; [|by apply NoDup_filter, (NoDup_fmap_1 fst)].
  intros [a1 m1] [a2 m2] [([c1 Hc1] & _) Hin1]%list_elem_of_filter
    [([c2 Hc2] & _) Hin2]%list_elem_of_filter. simpl in *.
  unfold compose, entry. rewrite !polar_entry_cell by done. simpl.
  unfold polar_cell. simpl. rewrite Hc1, Hc2. simpl. intros <-.
  assert (a1 = a2) as <- by (by eapply Hinj).
  f_equal. apply od_get_elem in Hin1, Hin2; [|done..]. congruence.
Qed.

(** ** The output file *)

(** C7: what the script does when no line of the document is exactly the
    Products marker.  The marker is looked up after the rest has been
    written: the run stops with a ValueError, but the output file exists and
    holds everything up to the marker the script writes itself; no log file
    is written. *)
Theorem missing_products_leaves_partial_file io inp p :
  prepare inp = Ok p →
  list_index products_line (lines inp) = None →
  run io inp =
    {| output_file := Some (
         concat_lines (take (hoi_start (doc p) + 1) (lines inp)) ++
         (join "," (final_columns p) ++ nl) ++
         to_csv (updated_hoi_df p) ++
         nl ++
         polar_line ++
         (join "," (polar_columns (doc p)) ++ nl) ++
         to_csv (polar_clean p) ++
         nl ++
         products_line);
       log_file := None;
       console := [];
       status := Raise ValueError |}.
Proof.
  intros Hp Hidx. unfold run, assemble, index_of. by rewrite Hp, Hidx.
Qed.

(** The two section markers are looked up before the output file is
    opened: without one of them the run stops with a ValueError and no file
    is written. *)
Theorem missing_section_marker_writes_nothing io inp data :
  build_channel_data (channel_df inp) (background_df inp) = Ok data →
  section_index "HoiChannels" (lines inp) = None ∨
    section_index "PolarizationCrosstalkParameter" (lines inp) = None →
  run io inp =
    {| output_file := None; log_file := None; console := []; status := Raise ValueError |}.
Proof.
  intros Hdata Hmarker. unfold run, prepare. rewrite Hdata. simpl.
  unfold read_document.
  destruct Hmarker as [->| ->]; [done|].
  by destruct (section_index "HoiChannels" (lines inp)).
Qed.

(** When the header of the polarization section has no g column, or has
    one but no h column, the run stops with a KeyError for that column
    before any file is written. *)
Theorem polar_header_without_g_or_h_aborts_run io inp data d st rows :
  build_channel_data (channel_df inp) (background_df inp) = Ok data →
  read_document (lines inp) = Ok d →
  matching_loop (original_hoi_df d) data = Ok st →
  updated_rows (matched_data st) (original_hoi_df d) = Ok rows →
  "g" ∉ polar_columns d ∨ "h" ∉ polar_columns d →
  run io inp =
    {| output_file := None; log_file := None; console := [];
       status := Raise (KeyError (if decide ("g" ∈ polar_columns d) then "h" else "g")) |}.
Proof.
  intros Hdata Hdoc Hloop Hrows Hmissing.
  unfold run, prepare. rewrite Hdata. simpl. rewrite Hdoc. simpl.
  rewrite Hloop. simpl. rewrite Hrows. simpl.
  unfold polar_df_clean, column. simpl.
  destruct (decide ("g" ∈ polar_columns d)) as [Hg|Hg]; simpl; [|done].
  destruct Hmissing as [?|Hh]; [done|]. by rewrite decide_False.
Qed.

(** Once the file is assembled and can be read again, the run ends well
    whatever the cleanup pass does: the log is written with the lines of
    the matching loop, the output file exists, and the console shows at
    most one cleanup error before the two closing messages. *)
Theorem assembled_run_writes_the_log io inp p (i : nat) :
  prepare inp = Ok p →
  list_index products_line (lines inp) = Some i →
  io ≠ RereadFails →
  status (run io inp) = Ok () ∧
  log_file (run io inp) = Some (log_text (log_lines (state p))) ∧
  is_Some (output_file (run io inp)) ∧
  (console (run io inp) = [Done; LogSaved] ∨
   ∃ e, console (run io inp) = [PostCleanupError e; Done; LogSaved]).
Proof.
  intros Hp Hi Hio. unfold run. rewrite Hp.
  unfold assemble, index_of. rewrite Hi.
  destruct (cleanup_pass io _) as [content' outcome] eqn:Hclean.
  destruct outcome as [|e|e]; simpl.
  - split_and!; [done..|by left].
  - split_and!; [done..|right; by exists e].
  - exfalso. unfold cleanup_pass in Hclean.
    destruct io; [|done|..]; destruct (cleanup_plan _); try done.
    by case_decide.
Qed.

(** ** The cleanup pass *)

Lemma cleanup_filter_eq (df : parsed) (j : nat) :
  list_index "g" (p_columns df) = Some j →
  cleanup_filter df =
    Ok (filter (λ r, keeps_g (default VNaN (r !! j)) = true) (p_rows df)).
Proof.
  intros Hj. unfold cleanup_filter, parsed_column. rewrite Hj. simpl. f_equal.
  rewrite <- list_fmap_compose.
  rewrite <- (list_fmap_id (p_rows df)) at 2.
  rewrite select_map_filter. by rewrite list_fmap_id.
Qed.

(** The row test itself is stable: the row filter of the cleanup pass is idempotent on the
    parsed table: applied to the table it produced, it keeps every row. *)
Theorem cleanup_filter_idempotent (df : parsed) kept :
  cleanup_filter df = Ok kept →
  cleanup_filter {| p_columns := p_columns df; p_rows := kept |} = Ok kept.
Proof.
  intros (j & Hj & ->)%cleanup_filter_spec.
  rewrite (cleanup_filter_eq _ j) by done. simpl. f_equal.
  by apply list_filter_filter_r.
Qed.

(** What makes the [try] block fail before it reopens the file. *)
Lemma cleanup_plan_failures (all_lines : list string) :
  (list_index polar_line all_lines = None →
     cleanup_plan all_lines = Raise ValueError) ∧
  (list_index products_line all_lines = None →
     cleanup_plan all_lines = Raise ValueError) ∧
  (∀ ps pi header e,
     list_index polar_line all_lines = Some ps →
     list_index products_line all_lines = Some pi →
     all_lines !! (ps + 1)%nat = Some header →
     read_csv (header ++
       concat_lines (py_slice (ps + 2) (Z.of_nat pi) all_lines)) = Raise e →
     cleanup_plan all_lines = Raise e) ∧
  (∀ ps pi header df,
     list_index polar_line all_lines = Some ps →
     list_index products_line all_lines = Some pi →
     all_lines !! (ps + 1)%nat = Some header →
     read_csv (header ++
       concat_lines (py_slice (ps + 2) (Z.of_nat pi) all_lines)) = Ok df →
     list_index "g" (p_columns df) = None →
     cleanup_plan all_lines = Raise (KeyError "g")).
Proof.
  unfold cleanup_plan, index_of, list_getitem. split_and!.
  - by intros ->.
  - intros ->. by destruct (list_index polar_line all_lines).
  - intros ps pi header e Hps Hpi Hh Hcsv.
    rewrite Hps. simpl. rewrite Hpi. simpl. rewrite Hh. simpl. by rewrite Hcsv.
  - intros ps pi header df Hps Hpi Hh Hcsv Hg.
    rewrite Hps. simpl. rewrite Hpi. simpl. rewrite Hh. simpl. rewrite Hcsv. simpl.
    unfold cleanup_filter, parsed_column. by rewrite Hg.
Qed.

(** C8, for failures ahead of the rewrite: a failure of the cleanup pass before anything is
    written (a marker or the header line not found, the polarization region
    not parsed, the g column absent, the file not reopened) is caught and
    reported; the run goes on to write the log, and the output file is the
    one the assembly wrote. *)
Theorem cleanup_failure_keeps_assembled_file io inp p content e :
  prepare inp = Ok p →
  assemble (lines inp) (hoi_start (doc p)) (final_columns p)
    (polar_columns (doc p)) (updated_hoi_df p) (polar_clean p) = (content, Ok ()) →
  io ≠ RereadFails →
  cleanup_plan (readlines content) = Raise e ∨
    (io = ReopenFails ∧ e = OSError ∧ is_ok (cleanup_plan (readlines content)) = true) →
  run io inp =
    {| output_file := Some content;
       log_file := Some (log_text (log_lines (state p)));
       console := [PostCleanupError e; Done; LogSaved];
       status := Ok () |}.
Proof.
  intros Hp Hasm Hio Hfail. unfold run. rewrite Hp, Hasm.
  assert (cleanup_pass io content = (content, Caught e)) as ->; [|done].
  unfold cleanup_pass. destruct Hfail as [->|(-> & -> & Hok)].
  - by destruct io.
  - by destruct (cleanup_plan (readlines content)).
Qed.

(** The cleanup pass rewrites the rows between the header of the
    polarization section and the Products line, and nothing else: when it
    succeeds on a file where that line comes after the header, the file
    before it is the lines up to the header, the old rows and the lines
    from the Products line on (as read, with line ends as line feeds), and
    the file after it is the same with the rows pandas kept, and an empty
    line, in the place of the old rows. *)
Theorem cleanup_keeps_the_rest io content content' (ps pi : nat) :
  cleanup_pass io content = (content', Cleaned) →
  list_index polar_line (readlines content) = Some ps →
  list_index products_line (readlines content) = Some pi →
  (ps + 2 ≤ pi)%nat →
  ∃ header old polar_df kept,
    readlines content !! (ps + 1)%nat = Some header ∧
    translate_newlines content =
      concat_lines (take (ps + 2) (readlines content)) ++ old ++
      concat_lines (drop pi (readlines content)) ∧
    read_csv (header ++ old) = Ok polar_df ∧
    cleanup_filter polar_df = Ok kept ∧
    content' =
      concat_lines (take (ps + 2) (readlines content)) ++
      (to_csv ((λ row : list value, fillna_str <$> row) <$> kept) ++ nl) ++
      concat_lines (drop pi (readlines content)).
Proof.
  intros Hclean Hps Hpi Hle.
  assert (∃ pieces, cleanup_plan (readlines content) = Ok pieces ∧
            content' = concat_lines pieces) as (pieces & Hplan & ->).
  { unfold cleanup_pass in Hclean.
    destruct io; try done;
      destruct (cleanup_plan (readlines content)) as [pieces|]; try done;
      try case_decide; try done; injection Hclean as <-; by exists pieces. }
  clear Hclean. revert Hplan. unfold cleanup_plan, index_of. rewrite Hps, Hpi. simpl.
  unfold list_getitem.
  destruct (readlines content !! (ps + 1)%nat) as [header|] eqn:Hheader; simpl; [|done].
  set (old := concat_lines (py_slice (ps + 2) (Z.of_nat pi) (readlines content))).
  destruct (read_csv (header ++ old)) as [polar_df|] eqn:Hcsv; simpl; [|done].
  destruct (cleanup_filter polar_df) as [kept|] eqn:Hkept; simpl; [|done].
  intros [= <-]. exists header, old, polar_df, kept.
  assert (take (ps + 2) (readlines content) =
            (take (ps + 1) (readlines content) ++ [header])%list) as Htake.
  { replace (ps + 2)%nat with (S (ps + 1)) by lia. by apply take_S_r. }
  split_and!; [done| |done|done|].
  - rewrite <- concat_readlines. subst old. unfold py_slice.
    destruct (Z.of_nat pi <? 0)%Z eqn:Hneg; [lia|].
    rewrite Nat2Z.id, <- !concat_lines_app.
    rewrite <- (take_drop (ps + 2) (readlines content)) at 1.
    rewrite <- (take_drop (pi - (ps + 2)) (drop (ps + 2) (readlines content))) at 1.
    rewrite drop_drop. by replace (ps + 2 + (pi - (ps + 2)))%nat with pi by lia.
  - rewrite Htake, concat_lines_app, !concat_lines_cons.
    change (concat_lines []) with "".
    rewrite !string_app_nil_r, !string_app_assoc. done.
Qed.



(** The file the assembly writes always has the two markers the cleanup
    pass looks for, each as a line of its own, and a line after the first
    polarization marker: the cleanup pass can fail on it in the parser, on
    the g column or on the file system, not for a marker it does not find. *)
Theorem cleanup_finds_its_markers (lines : list string) (hoi_start : nat)
    (hoi_columns polar_columns : list string)
    (updated_hoi_df polar_clean : list (list cell)) content :
  assemble lines hoi_start hoi_columns polar_columns updated_hoi_df polar_clean
    = (content, Ok ()) →
  ∃ ps pi header,
    index_of polar_line (readlines content) = Ok ps ∧
    index_of products_line (readlines content) = Ok pi ∧
    list_getitem (readlines content) (ps + 1) = Ok header.
Proof.
  unfold assemble.
  destruct (index_of products_line lines) as [i|]; [|done].
  intros [= <-].
  set (top := concat_lines (take (hoi_start + 1) lines)).
  set (tail := concat_lines (drop (i + 1) lines)).
  set (A := top ++ (join "," hoi_columns ++ nl) ++ to_csv updated_hoi_df).
  set (P := "PolarizationCrosstalkParameter").
  set (B := to_csv polar_clean ++ nl ++ products_line ++ tail).
  set (A2 := top ++ (join "," hoi_columns ++ nl) ++ to_csv updated_hoi_df ++ nl ++
               polar_line ++ (join "," polar_columns ++ nl) ++ to_csv polar_clean).
  assert (readlines
            ((top ++ (join "," hoi_columns ++ nl) ++ to_csv updated_hoi_df ++ nl ++
              polar_line ++ (join "," polar_columns ++ nl) ++ to_csv polar_clean ++
              nl ++ products_line) ++ tail) =
          (readlines (A ++ nl) ++ polar_line ::
             readlines (join "," polar_columns ++ nl) ++ readlines B)%list) as Hpolar.
  { replace ((top ++ (join "," hoi_columns ++ nl) ++ to_csv updated_hoi_df ++ nl ++
              polar_line ++ (join "," polar_columns ++ nl) ++ to_csv polar_clean ++
              nl ++ products_line) ++ tail)
      with (A ++ nl ++ P ++ nl ++ join "," polar_columns ++ nl ++ B)
      by (subst A P B; unfold polar_line; by rewrite !string_app_assoc).
    rewrite (readlines_app_nl A), (readlines_app_nl P), (readlines_app_nl (join _ _)).
    done. }
  assert (readlines
            ((top ++ (join "," hoi_columns ++ nl) ++ to_csv updated_hoi_df ++ nl ++
              polar_line ++ (join "," polar_columns ++ nl) ++ to_csv polar_clean ++
              nl ++ products_line) ++ tail) =
          (readlines (A2 ++ nl) ++ products_line :: readlines tail)%list) as Hproducts.
  { replace ((top ++ (join "," hoi_columns ++ nl) ++ to_csv updated_hoi_df ++ nl ++
              polar_line ++ (join "," polar_columns ++ nl) ++ to_csv polar_clean ++
              nl ++ products_line) ++ tail)
      with (A2 ++ nl ++ "Products" ++ nl ++ tail)
      by (subst A2; unfold products_line; by rewrite !string_app_assoc).
    rewrite (readlines_app_nl A2), (readlines_app_nl "Products"). done. }
  destruct (list_index_app_here polar_line (readlines (A ++ nl))
              (readlines (join "," polar_columns ++ nl) ++ readlines B)%list)
    as (ps & Hps & Hle).
  destruct (list_index_app_here products_line (readlines (A2 ++ nl)) (readlines tail))
    as (pi & Hpi & _).
  destruct (lookup_lt_is_Some_2
              (readlines (A ++ nl) ++ polar_line ::
                 readlines (join "," polar_columns ++ nl) ++ readlines B)%list
              (ps + 1)) as [header Hheader].
  { pose proof (readlines_nonempty (join "," polar_columns)) as Hne.
    rewrite length_app. simpl. rewrite length_app.
    destruct (readlines (join "," polar_columns ++ nl)); [done|]. simpl. lia. }
  exists ps, pi, header. unfold index_of, list_getitem.
  split_and!.
  - by rewrite Hpolar, Hps.
  - by rewrite Hproducts, Hpi.
  - by rewrite Hpolar, Hheader.
Qed.

End Script.

(** C9: the parser raises on an identifier of four characters. *)
Lemma parse_atlas_id_four_chars : parse_atlas_id "0532" = Raise IndexError.
Proof. reflexivity. Qed.

(** C9 on an identifier of seven characters. *)
Lemma parse_atlas_id_from_seven_witness :
  (7 ≤ String.length "0532xpa")%nat ∧
  parse_atlas_id "0532xpa" =
    Ok {| wavelength := "0532"; range := "x"; scattering := "p"; mode := "a"; suffix := "" |}.
Proof. split; [simpl; lia | apply (parse_atlas_id_from_seven "0532xpa"); simpl; lia]. Defined.

(** * The script on the sample report and configuration file *)

Local Abbreviation prepare' :=
  (prepare Reference.py_int Reference.decimal Reference.py_float Reference.py_round).
Local Abbreviation matching_loop' :=
  (matching_loop Reference.py_int Reference.decimal Reference.py_float Reference.py_round).
Local Abbreviation match_step' :=
  (match_step Reference.py_int Reference.decimal Reference.py_float Reference.py_round).
Local Abbreviation is_candidate' :=
  (is_candidate Reference.decimal Reference.py_float Reference.py_round).
Local Abbreviation run' :=
  (run Reference.py_int Reference.decimal Reference.py_float Reference.py_round
     Reference.to_csv Reference.read_csv Reference.float_str).
Local Abbreviation cleanup_pass' :=
  (cleanup_pass Reference.decimal Reference.to_csv Reference.read_csv Reference.float_str).
Local Abbreviation cleanup_plan' :=
  (cleanup_plan Reference.decimal Reference.to_csv Reference.read_csv Reference.float_str).
Local Abbreviation assemble' := (assemble Reference.to_csv).
Local Abbreviation cleanup_filter' := (cleanup_filter Reference.decimal Reference.float_str).

Lemma fmap_Ok {A B} (f : A → B) (r : result A) (a : A) (v : B) :
  r = Ok a → f <$> r = Ok v → f a = v.
Proof. by intros -> [= <-]. Qed.

(** Evaluation: of both sides of an equation, of a decision, and of a
    computation that cannot have raised. *)
Ltac run_it := vm_compute; reflexivity.
Ltac decide_it := apply (bool_decide_unpack _); vm_compute; exact I.
Ltac did_not_raise H :=
  exfalso; generalize (f_equal is_ok H); vm_compute; discriminate.
(** A fact about the result of a computation, from its evaluation. *)
Ltac from_run H :=
  match type of H with
  | _ = Ok ?p =>
      match goal with
      | |- ?lhs = ?v =>
          let f := eval pattern p in lhs in
          match f with
          | ?g _ => apply (fmap_Ok g _ p v H); decide_it
          end
      end
  end.

(** An identifier of six characters. *)
Lemma parse_atlas_id_short_witness :
  (String.length "0532xp" < 7)%nat ∧ parse_atlas_id "0532xp" = Raise IndexError.
Proof. split; [simpl; lia | apply (parse_atlas_id_short "0532xp"); simpl; lia]. Defined.

(** C1 on the sample: the three records against the three channel rows. *)
Lemma correspondence_injective_witness :
  ∃ st, matching_loop' Sample.hoi_df Sample.records = Ok st ∧
    (∀ a1 a2 i, atlas_to_csv_id st !! a1 = Some i →
                atlas_to_csv_id st !! a2 = Some i → a1 = a2) ∧
    (∀ a i, atlas_to_csv_id st !! a = Some i → i ∈ used_csv_ids st).
Proof.
  destruct (matching_loop' Sample.hoi_df Sample.records) as [st|e] eqn:Hloop;
    [|did_not_raise Hloop].
  exists st. split; [done|].
  exact (correspondence_injective Reference.py_int Reference.decimal Reference.py_float
           Reference.py_round Sample.hoi_df Sample.records st Hloop).
Defined.

(** C2 on a table with three analog rows at 532 nm: the first record has
    taken the row A, so that the second one, which all three rows fit, has
    the candidates B and C and takes B. *)
Lemma greedy_first_candidate_witness :
  ∃ st,
    matching_loop' Sample.analog_df [Sample.record_1] = Ok st ∧
    used_csv_ids st = {[Str "A"]} ∧
    (λ r, cell_at r "id") <$>
      filter (is_candidate' ∅ "an" 532) (records Sample.analog_df) =
      [Str "A"; Str "B"; Str "C"] ∧
    (λ r, cell_at r "id") <$>
      filter (is_candidate' (used_csv_ids st) "an" 532) (records Sample.analog_df) =
      [Str "B"; Str "C"] ∧
    matching_loop' Sample.analog_df ([Sample.record_1] ++ Sample.record_s :: []) =
      st' ← (if decide (String.length "0532xsa" < 7)%nat then Raise IndexError
             else
               match Reference.py_int (substring 0 4 "0532xsa") with
               | None =>
                   Ok {| atlas_to_csv_id := atlas_to_csv_id st;
                         used_csv_ids := used_csv_ids st;
                         log_lines :=
                           (log_lines st ++
                            [("Skipped invalid ATLAS ID (bad wavelength): " ++
                              "0532xsa")%string])%list;
                         matched_data := matched_data st |}
               | Some wl =>
                   if decide ("_detection_mode_id_id" ∉ columns Sample.analog_df)
                   then Raise (KeyError "_detection_mode_id_id")
                   else if decide ("if_center" ∉ columns Sample.analog_df)
                   then Raise (KeyError "if_center")
                   else if decide ("id" ∉ columns Sample.analog_df)
                   then Raise (KeyError "id")
                   else
                     match filter (is_candidate' (used_csv_ids st)
                                     (if decide (substring 6 1 "0532xsa" = "a")
                                      then "an" else "pc") wl)
                             (records Sample.analog_df) with
                     | r :: _ =>
                         Ok {| atlas_to_csv_id :=
                                 <["0532xsa" := cell_at r "id"]> (atlas_to_csv_id st);
                               used_csv_ids := {[cell_at r "id"]} ∪ used_csv_ids st;
                               log_lines :=
                                 (log_lines st ++
                                  [("Matched automatically: " ++ "0532xsa" ++
                                    " → CSV ID: " ++
                                    str_of_cell (cell_at r "id"))%string])%list;
                               matched_data :=
                                 <[cell_at r "id" := Sample.record_s.2]> (matched_data st) |}
                     | [] =>
                         Ok {| atlas_to_csv_id := atlas_to_csv_id st;
                               used_csv_ids := used_csv_ids st;
                               log_lines :=
                                 (log_lines st ++
                                  [("Not matched: " ++ "0532xsa")%string])%list;
                               matched_data := matched_data st |}
                     end
               end);
      for_each (match_step' Sample.analog_df) [] st'.
Proof.
  destruct (matching_loop' Sample.analog_df [Sample.record_1]) as [st|e] eqn:Hloop;
    [|did_not_raise Hloop].
  exists st. split; [done|].
  split; [from_run Hloop|]. split; [run_it|]. split; [from_run Hloop|].
  apply (greedy_first_candidate Reference.py_int Reference.decimal Reference.py_float
           Reference.py_round Sample.analog_df [Sample.record_1] []
           "0532xsa" Sample.record_s.2 st Hloop).
Defined.

(** C2: the fourth identifier of the sample report has no integer prefix;
    when its turn comes the log gets the Skipped line, which is neither the
    Matched nor the Not matched line, and the identifier is not mapped. *)
Lemma record_without_integer_prefix_is_skipped :
  (λ p, (channel_data p).*1 !! 3%nat) <$> prepare' Sample.inp = Ok (Some "abcdxpa") ∧
  Reference.py_int (substring 0 4 "abcdxpa") = None ∧
  (λ p, log_lines (state p) !! 3%nat) <$> prepare' Sample.inp =
    Ok (Some "Skipped invalid ATLAS ID (bad wavelength): abcdxpa") ∧
  (λ p, bool_decide (log_lines (state p) !! 3%nat = Some "Not matched: abcdxpa"))
    <$> prepare' Sample.inp = Ok false ∧
  (λ p, atlas_to_csv_id (state p) !! "abcdxpa") <$> prepare' Sample.inp = Ok None.
Proof. split_and!; run_it. Qed.

(** After the first record has taken A12, the second takes the row 007:
    the first pc row at 532 nm. *)
Lemma second_record_takes_row_007 :
  (λ r, cell_at r "id") <$>
    filter (is_candidate' {[Str "A12"]} "pc" 532) (records Sample.hoi_df) = [Str "007"].
Proof. run_it. Qed.

(** C3: the record 0532xpp has an empty H cell, is matched, and its row is
    in the final document with an empty h. *)
Lemma final_row_with_empty_h :
  dict_get Sample.record_2.2 "H" NA = Str "" ∧
  polar_clean <$> prepare' Sample.inp =
    Ok [ [Str "A12"; Str ""; Str "0.5"; Str "25/06/2025 00:00"];
         [Str "007"; Str "1.5"; Str ""; Str "25/06/2025 00:00"] ] ∧
  output_file (run' IoFine Sample.inp) = Some Sample.cleaned_once.
Proof. split_and!; run_it. Qed.

(** C3 on the sample run: the derived rows. *)
Lemma polarization_rows_witness :
  ∃ p, prepare' Sample.inp = Ok p ∧
    polar_clean p =
      (λ item,
         polar_cell (default NA (atlas_to_csv_id (state p) !! item.1))
           (dict_get item.2 "G" NA) (dict_get item.2 "H" NA) (depol_date Sample.inp)
         <$> polar_columns (doc p)) <$>
        filter (has_calibration (atlas_to_csv_id (state p))) (channel_data p).
Proof.
  destruct (prepare' Sample.inp) as [p|e] eqn:Hp; [|did_not_raise Hp].
  exists p. split; [done|].
  apply (polarization_rows Reference.py_int Reference.decimal Reference.py_float
           Reference.py_round Reference.float_str Sample.inp p Hp).
Defined.

(** C4 on the sample run: the row 300, which no identifier takes. *)
Lemma non_destructive_merge_witness :
  ∃ p,
    prepare' Sample.inp = Ok p ∧
    ∃ extra,
      final_columns p = (hoi_columns (doc p) ++ extra)%list ∧
      updated_hoi_df p !! 2%nat =
        Some (((λ c, cell_at Sample.row_300 c) <$> hoi_columns (doc p)) ++
              ((λ c, cell_at Sample.row_300 c) <$> extra))%list.
Proof.
  destruct (prepare' Sample.inp) as [p|e] eqn:Hp; [|did_not_raise Hp].
  exists p. split; [done|].
  apply (non_destructive_merge Reference.py_int Reference.decimal Reference.py_float
           Reference.py_round Sample.inp p 2 Sample.row_300 Hp).
  - from_run Hp.
  - assert (map_Forall (λ (_ : string) v, v ≠ cell_at Sample.row_300 "id")
              (atlas_to_csv_id (state p))) as Hfree.
    { apply (bool_decide_eq_true_1 _).
      apply (fmap_Ok (λ p, bool_decide (map_Forall
               (λ (_ : string) v, v ≠ cell_at Sample.row_300 "id")
               (atlas_to_csv_id (state p)))) _ _ _ Hp).
      run_it. }
    intros aid Haid. exact (Hfree aid _ Haid eq_refl).
Defined.

(** The rows of the sample run keep their places and ids. *)
Lemma merge_keeps_rows_and_ids_witness :
  ∃ p, prepare' Sample.inp = Ok p ∧
    List.length (updated_hoi_df p) = List.length (iterrows (original_hoi_df (doc p))) ∧
    ∀ (i : nat) (row : Series),
      iterrows (original_hoi_df (doc p)) !! i = Some row →
      ∃ row', updated_hoi_df p !! i = Some ((λ c, cell_at row' c) <$> final_columns p) ∧
              cell_at row' "id" = cell_at row "id".
Proof.
  destruct (prepare' Sample.inp) as [p|e] eqn:Hp; [|did_not_raise Hp].
  exists p. split; [done|].
  apply (merge_keeps_rows_and_ids Reference.py_int Reference.decimal Reference.py_float
           Reference.py_round Sample.inp p Hp).
Defined.

(** The unmatched row 300 in the output: as in the input, and nothing
    under the two new columns. *)
Lemma row_300_in_the_output :
  (λ p, updated_hoi_df p !! 2%nat) <$> prepare' Sample.inp =
    Ok (Some [Str "300"; Str "an"; Str "1064"; Str "3.7"; Str "0"; NA; NA]).
Proof. run_it. Qed.

(** C5: the record of 0532xpa has a missing dead time; the row A12 it is
    merged into had 3.5 and comes out with a missing dead time. *)
Lemma missing_dead_time_overwrites :
  (λ p, atlas_to_csv_id (state p) !! "0532xpa") <$> prepare' Sample.inp
    = Ok (Some (Str "A12")) ∧
  (λ p, od_get "0532xpa" (channel_data p) ≫= (λ m : Series, m !! "Dead time"))
    <$> prepare' Sample.inp = Ok (Some NA) ∧
  (λ p, (λ r, (cell_at r "id", cell_at r "dead_time")) <$>
          iterrows (original_hoi_df (doc p)) !! 0%nat) <$> prepare' Sample.inp
    = Ok (Some (Str "A12", Str "3.5")) ∧
  (λ p, (final_columns p, updated_hoi_df p !! 0%nat)) <$> prepare' Sample.inp =
    Ok (["id"; "_detection_mode_id_id"; "if_center"; "dead_time";
         "_background_mode_id_id"; "_Minimum_channel_height_"; "_Maximum_channel_height_"],
        Some [Str "A12"; Str "an"; Str "532"; NA; Int 0; Str "100"; Str "20000"]).
Proof. split_and!; run_it. Qed.

(** C5 on the sample run: the row A12, taken by 0532xpa. *)
Lemma merge_field_rule_witness :
  ∃ p,
    prepare' Sample.inp = Ok p ∧
    ∃ match_ row',
      od_get "0532xpa" (channel_data p) = Some match_ ∧
      updated_hoi_df p !! 0%nat = Some ((λ c, cell_at row' c) <$> final_columns p) ∧
      (∀ f F, (f, F) ∈ overwritten_fields →
         row' !! f = Some (dict_get match_ F (dict_get Sample.row_A12 f (Str "")))) ∧
      row' !! "_background_mode_id_id" =
        Some (if decide (match_ !! "Background Mode" = Some (Str "Pre-Trigger"))
              then Int 0 else Int 1) ∧
      (∀ f F, (f, F) ∈ height_fields → row' !! f = Some (dict_get match_ F (Str ""))) ∧
      (∀ f, f ∉ designated_fields → row' !! f = Sample.row_A12 !! f).
Proof.
  destruct (prepare' Sample.inp) as [p|e] eqn:Hp; [|did_not_raise Hp].
  exists p. split; [done|].
  apply (merge_field_rule Reference.py_int Reference.decimal Reference.py_float
           Reference.py_round Sample.inp p 0 Sample.row_A12 "0532xpa" Hp);
    from_run Hp.
Defined.


(** The row filter on a parsed table of two rows. *)
Lemma cleanup_filter_idempotent_witness :
  cleanup_filter' Sample.parsed_rows = Ok [ [VStr "007"; VFloat (15%Z, 1%nat); VNaN] ] ∧
  cleanup_filter'
    {| p_columns := p_columns Sample.parsed_rows;
       p_rows := [ [VStr "007"; VFloat (15%Z, 1%nat); VNaN] ] |} =
    Ok [ [VStr "007"; VFloat (15%Z, 1%nat); VNaN] ].
Proof.
  split; [reflexivity|].
  apply (cleanup_filter_idempotent Reference.decimal Reference.float_str Sample.parsed_rows).
  reflexivity.
Defined.

(** C7: on the configuration file without a Products line the run stops
    with a ValueError and leaves an output file that ends after the marker
    the script writes itself. *)
Lemma run_without_products :
  run' IoFine Sample.inp_no_products =
    {| output_file := Some (concat_lines
         (Sample.hoi_written ++
          Sample.polar_written [Sample.line "A12,,0.5,25/06/2025 00:00";
                                Sample.line "007,1.5,,25/06/2025 00:00"] ++
          [Sample.line "Products"]));
       log_file := None;
       console := [];
       status := Raise ValueError |}.
Proof. run_it. Qed.

(** C7 on the sample file without its Products section. *)
Lemma missing_products_witness :
  ∃ p, prepare' Sample.inp_no_products = Ok p ∧
    run' IoFine Sample.inp_no_products =
      {| output_file := Some (
           concat_lines (take (hoi_start (doc p) + 1) (lines Sample.inp_no_products)) ++
           (join "," (final_columns p) ++ nl) ++
           Reference.to_csv (updated_hoi_df p) ++
           nl ++
           polar_line ++
           (join "," (polar_columns (doc p)) ++ nl) ++
           Reference.to_csv (polar_clean p) ++
           nl ++
           products_line);
         log_file := None;
         console := [];
         status := Raise ValueError |}.
Proof.
  destruct (prepare' Sample.inp_no_products) as [p|e] eqn:Hp; [|did_not_raise Hp].
  exists p. split; [reflexivity|].
  apply (missing_products_leaves_partial_file Reference.py_int Reference.decimal
           Reference.py_float Reference.py_round Reference.to_csv Reference.read_csv
           Reference.float_str IoFine Sample.inp_no_products p Hp).
  run_it.
Defined.

(** The sample file without its polarization section: nothing is written. *)
Lemma missing_section_marker_witness :
  ∃ data,
    build_channel_data (channel_df Sample.inp_no_polar) (background_df Sample.inp_no_polar)
      = Ok data ∧
    section_index "PolarizationCrosstalkParameter" (lines Sample.inp_no_polar) = None ∧
    run' IoFine Sample.inp_no_polar =
      {| output_file := None; log_file := None; console := [];
         status := Raise ValueError |}.
Proof.
  destruct (build_channel_data (channel_df Sample.inp_no_polar)
              (background_df Sample.inp_no_polar)) as [data|e] eqn:Hdata;
    [|did_not_raise Hdata].
  exists data. split; [done|]. split; [run_it|].
  apply (missing_section_marker_writes_nothing Reference.py_int Reference.decimal
           Reference.py_float Reference.py_round Reference.to_csv Reference.read_csv
           Reference.float_str IoFine Sample.inp_no_polar data Hdata).
  right. run_it.
Defined.

(** C8: when the re-read of the output file fails, the run stops: the
    failure is outside the try block.  When a write of the cleanup pass
    fails, the failure is caught, but the file has been emptied by its
    reopening and holds only what was written before the failure. *)
Lemma cleanup_io_failures :
  run' RereadFails Sample.inp =
    {| output_file := Some Sample.assembled;
       log_file := None;
       console := [];
       status := Raise OSError |} ∧
  output_file (run' (WriteFails 1) Sample.inp) =
    Some (concat_lines (Sample.hoi_written ++ [Sample.line "PolarizationCrosstalkParameter"])) ∧
  console (run' (WriteFails 1) Sample.inp) = [PostCleanupError OSError; Done; LogSaved].
Proof. split_and!; run_it. Qed.

(** C8 on the sample file with an early marker: the cleanup
    pass takes the comment block for the polarization section and pandas
    refuses it. *)
Lemma cleanup_failure_witness :
  ∃ p content,
    prepare' Sample.inp_early_marker = Ok p ∧
    assemble' (lines Sample.inp_early_marker) (hoi_start (doc p)) (final_columns p)
      (polar_columns (doc p)) (updated_hoi_df p) (polar_clean p) = (content, Ok ()) ∧
    run' IoFine Sample.inp_early_marker =
      {| output_file := Some content;
         log_file := Some (log_text (log_lines (state p)));
         console := [PostCleanupError ParserError; Done; LogSaved];
         status := Ok () |}.
Proof.
  destruct (prepare' Sample.inp_early_marker) as [p|e] eqn:Hp; [|did_not_raise Hp].
  exists p.
  destruct (assemble' (lines Sample.inp_early_marker) (hoi_start (doc p)) (final_columns p)
      (polar_columns (doc p)) (updated_hoi_df p) (polar_clean p)) as [content r] eqn:Hasm.
  assert (r = Ok ()) as ->.
  { unfold assemble in Hasm. simpl in Hasm. injection Hasm as _ <-. reflexivity. }
  exists content. split; [done|]. split; [done|].
  apply (cleanup_failure_keeps_assembled_file Reference.py_int Reference.decimal
           Reference.py_float Reference.py_round Reference.to_csv Reference.read_csv
           Reference.float_str IoFine Sample.inp_early_marker p content ParserError Hp Hasm);
    [discriminate|].
  left.
  assert ((λ p, cleanup_plan' (readlines (assemble' (lines Sample.inp_early_marker)
             (hoi_start (doc p)) (final_columns p) (polar_columns (doc p))
             (updated_hoi_df p) (polar_clean p)).1)) <$> prepare' Sample.inp_early_marker
          = Ok (Raise ParserError)) as Hplan by run_it.
  apply (fmap_Ok _ _ p _ Hp) in Hplan. cbv beta in Hplan. by rewrite Hasm in Hplan.
Defined.

(** C10 on a channel table where 0532xpa comes twice. *)
Lemma channel_data_last_row_wins_witness :
  ∃ d1 d rec,
    channel_pass
      ([Sample.channel_row (Some "0532xpa") (Some "1.0") (Some "1") (Some "1")] ++
       Sample.channel_row (Some "0532xpa") (Some "2.0") (Some "2") (Some "2") ::
       [Sample.channel_row (Some "1064xpp") (Some "3.0") (Some "3") (Some "3")]) = Ok d1 ∧
    filter (λ kv, kv.1 = "0532xpa") d1 =
      [("0532xpa",
        to_dict (Sample.channel_row (Some "0532xpa") (Some "2.0") (Some "2") (Some "2")))] ∧
    build_channel_data
      ([Sample.channel_row (Some "0532xpa") (Some "1.0") (Some "1") (Some "1")] ++
       Sample.channel_row (Some "0532xpa") (Some "2.0") (Some "2") (Some "2") ::
       [Sample.channel_row (Some "1064xpp") (Some "3.0") (Some "3") (Some "3")])
      Sample.report_backgrounds = Ok d ∧
    filter (λ kv, kv.1 = "0532xpa") d = [("0532xpa", rec)] ∧
    ∀ f, Forall (λ r : pdf_row, r !! f = None) Sample.report_backgrounds →
         rec !! f =
           to_dict (Sample.channel_row (Some "0532xpa") (Some "2.0") (Some "2") (Some "2")) !! f.
Proof.
  apply (channel_data_last_row_wins
           [Sample.channel_row (Some "0532xpa") (Some "1.0") (Some "1") (Some "1")]
           [Sample.channel_row (Some "1064xpp") (Some "3.0") (Some "3") (Some "3")]
           Sample.report_backgrounds
           (Sample.channel_row (Some "0532xpa") (Some "2.0") (Some "2") (Some "2"))
           "0532xpa");
    [decide_it | decide_it | run_it | by vm_compute | decide_it].
Defined.

(** ** Further runs *)

(** The identifiers of the sample report: the header row is left out. *)
Lemma channel_data_keys_witness :
  ∃ d, build_channel_data Sample.report_channels Sample.report_backgrounds = Ok d ∧
    d.*1 = first_occurrences (omap accepted_identifier Sample.report_channels).
Proof.
  destruct (build_channel_data Sample.report_channels Sample.report_backgrounds)
    as [d|e] eqn:Hd; [|did_not_raise Hd].
  exists d. split; [done|].
  apply (channel_data_keys Sample.report_channels Sample.report_backgrounds d Hd).
Defined.

(** The record of 0532xpa takes the fields of its background row. *)
Lemma background_fields_override_witness :
  ∃ d rec,
    build_channel_data Sample.report_channels
      ([] ++ Sample.background_row (Some "0532xpa") (Some "Pre-Trigger") ::
             [Sample.background_row (Some "9999xpa") (Some "Pre-Trigger")]) = Ok d ∧
    od_get "0532xpa" d = Some rec ∧
    ∀ f v, Sample.background_row (Some "0532xpa") (Some "Pre-Trigger") !! f = Some v →
           rec !! f = Some (cell_of v).
Proof.
  destruct (build_channel_data Sample.report_channels
      ([] ++ Sample.background_row (Some "0532xpa") (Some "Pre-Trigger") ::
             [Sample.background_row (Some "9999xpa") (Some "Pre-Trigger")]))
    as [d|e] eqn:Hd; [|did_not_raise Hd].
  destruct (od_get "0532xpa" d) as [rec|] eqn:Hrec.
  - exists d, rec. split; [done|]. split; [done|].
    apply (background_fields_override Sample.report_channels []
             [Sample.background_row (Some "9999xpa") (Some "Pre-Trigger")]
             (Sample.background_row (Some "0532xpa") (Some "Pre-Trigger"))
             "0532xpa" d rec Hd); [reflexivity|decide_it|exact Hrec].
  - exfalso.
    assert ((λ d : list (string * Series), bool_decide (is_Some (od_get "0532xpa" d))) d
              = true) as Hsome by from_run Hd.
    simpl in Hsome. rewrite Hrec in Hsome.
    apply bool_decide_eq_true in Hsome. by destruct Hsome.
Defined.

Lemma bind_Ok_inv {A B} (r : result A) (f : A → result B) (b : B) :
  r ≫= f = Ok b → ∃ a, r = Ok a ∧ f a = Ok b.
Proof. destruct r as [a|]; [|done]. intros Hf. by exists a. Qed.

(** The row A12, that 0532xpa is mapped to, is an analog row at 532 nm. *)
Lemma matched_row_fits_witness :
  ∃ st, matching_loop' Sample.hoi_df Sample.records = Ok st ∧
    atlas_to_csv_id st !! "0532xpa" = Some (Str "A12") ∧
    ∃ parts wl row,
      parse_atlas_id "0532xpa" = Ok parts ∧
      Reference.py_int (wavelength parts) = Some wl ∧
      row ∈ records Sample.hoi_df ∧
      cell_at row "id" = Str "A12" ∧
      cell_at row "_detection_mode_id_id" = Str (expected_mode parts) ∧
      normalize_wavelength Reference.decimal Reference.py_float Reference.py_round
        (cell_at row "if_center") = Some wl.
Proof.
  destruct (matching_loop' Sample.hoi_df Sample.records) as [st|e] eqn:Hloop;
    [|did_not_raise Hloop].
  assert (atlas_to_csv_id st !! "0532xpa" = Some (Str "A12")) as Ha by from_run Hloop.
  exists st. split; [done|]. split; [done|].
  apply (matched_row_fits Reference.py_int Reference.decimal Reference.py_float
           Reference.py_round Sample.hoi_df Sample.records st "0532xpa" (Str "A12")
           Hloop Ha).
Defined.

(** The log of the three sample records. *)
Lemma log_tells_the_correspondence_witness :
  NoDup Sample.records.*1 ∧
  ∃ st, matching_loop' Sample.hoi_df Sample.records = Ok st ∧
    List.length (log_lines st) = List.length Sample.records ∧
    ∀ (k : nat) aid m, Sample.records !! k = Some (aid, m) →
      log_lines st !! k = Some (expected_log_line Reference.py_int st aid).
Proof.
  assert (NoDup Sample.records.*1) as Hnd by decide_it.
  split; [done|].
  destruct (matching_loop' Sample.hoi_df Sample.records) as [st|e] eqn:Hloop;
    [|did_not_raise Hloop].
  exists st. split; [done|].
  apply (log_tells_the_correspondence Reference.py_int Reference.decimal
           Reference.py_float Reference.py_round Sample.hoi_df Sample.records st
           Hnd Hloop).
Defined.

(** The report with a footnote among its identifiers stops the run. *)
Lemma short_identifier_aborts_run_witness :
  ∃ data d,
    build_channel_data (channel_df Sample.inp_short_identifier)
      (background_df Sample.inp_short_identifier) = Ok data ∧
    read_document (lines Sample.inp_short_identifier) = Ok d ∧
    Exists (λ item : string * Series, (String.length item.1 < 7)%nat) data ∧
    run' IoFine Sample.inp_short_identifier =
      {| output_file := None; log_file := None; console := [];
         status := Raise IndexError |}.
Proof.
  destruct (build_channel_data (channel_df Sample.inp_short_identifier)
              (background_df Sample.inp_short_identifier)) as [data|e] eqn:Hdata;
    [|did_not_raise Hdata].
  destruct (read_document (lines Sample.inp_short_identifier)) as [d|e] eqn:Hdoc;
    [|did_not_raise Hdoc].
  assert (Exists (λ item : string * Series, (String.length item.1 < 7)%nat) data)
    as Hshort by (apply (bool_decide_eq_true_1 _); from_run Hdata).
  exists data, d. split; [done|]. split; [done|]. split; [done|].
  apply (short_identifier_aborts_run Reference.py_int Reference.decimal
           Reference.py_float Reference.py_round Reference.to_csv Reference.read_csv
           Reference.float_str IoFine Sample.inp_short_identifier data d Hdata Hdoc);
    [apply (bool_decide_eq_true_1 _); from_run Hdoc..|exact Hshort].
Defined.

(** The configuration file without channel rows stops the run at the
    first record with an integer prefix. *)
Lemma missing_mode_column_aborts_run_witness :
  ∃ data d,
    build_channel_data (channel_df Sample.inp_no_rows)
      (background_df Sample.inp_no_rows) = Ok data ∧
    read_document (lines Sample.inp_no_rows) = Ok d ∧
    records (original_hoi_df d) = [] ∧
    run' IoFine Sample.inp_no_rows =
      {| output_file := None; log_file := None; console := [];
         status := Raise (KeyError "_detection_mode_id_id") |}.
Proof.
  destruct (build_channel_data (channel_df Sample.inp_no_rows)
              (background_df Sample.inp_no_rows)) as [data|e] eqn:Hdata;
    [|did_not_raise Hdata].
  destruct (read_document (lines Sample.inp_no_rows)) as [d|e] eqn:Hdoc;
    [|did_not_raise Hdoc].
  assert (records (original_hoi_df d) = []) as Hrows by from_run Hdoc.
  exists data, d. split; [done|]. split; [done|]. split; [done|].
  apply (missing_mode_column_aborts_run Reference.py_int Reference.decimal
           Reference.py_float Reference.py_round Reference.to_csv Reference.read_csv
           Reference.float_str IoFine Sample.inp_no_rows data d Hdata Hdoc);
    [by left|apply (bool_decide_eq_true_1 _); from_run Hdata..].
Defined.

(** The five fields of 0532xpa. *)
Lemma parse_atlas_id_round_trip_witness :
  ∃ parts, parse_atlas_id "0532xpa" = Ok parts ∧
    wavelength parts ++ range parts ++ scattering parts ++ mode parts ++ suffix parts =
      substring 0 8 "0532xpa".
Proof.
  destruct (parse_atlas_id "0532xpa") as [parts|e] eqn:Hparts; [|did_not_raise Hparts].
  exists parts. split; [done|].
  apply (parse_atlas_id_round_trip "0532xpa" parts Hparts).
Defined.

(** The configuration file whose polarization header has no g. *)
Lemma polar_header_without_g_or_h_aborts_run_witness :
  ∃ data d st rows,
    build_channel_data (channel_df Sample.inp_no_g) (background_df Sample.inp_no_g)
      = Ok data ∧
    read_document (lines Sample.inp_no_g) = Ok d ∧
    matching_loop' (original_hoi_df d) data = Ok st ∧
    updated_rows (matched_data st) (original_hoi_df d) = Ok rows ∧
    ("g" ∉ polar_columns d) ∧
    run' IoFine Sample.inp_no_g =
      {| output_file := None; log_file := None; console := [];
         status := Raise (KeyError (if decide ("g" ∈ polar_columns d) then "h" else "g")) |}.
Proof.
  destruct (data ← build_channel_data (channel_df Sample.inp_no_g)
                     (background_df Sample.inp_no_g);
            d ← read_document (lines Sample.inp_no_g);
            st ← matching_loop' (original_hoi_df d) data;
            rows ← updated_rows (matched_data st) (original_hoi_df d);
            Ok (bool_decide ("g" ∉ polar_columns d), (data, d, st, rows)))
    as [[g [[[data d] st] rows]]|e] eqn:Hall; [|did_not_raise Hall].
  assert (g = true) as -> by (change (fst (g, (data, d, st, rows)) = true); from_run Hall).
  apply bind_Ok_inv in Hall as (data' & Hdata & Hall).
  apply bind_Ok_inv in Hall as (d' & Hdoc & Hall).
  apply bind_Ok_inv in Hall as (st' & Hloop & Hall).
  apply bind_Ok_inv in Hall as (rows' & Hrows & Hall).
  injection Hall as Hg -> -> -> ->. apply bool_decide_eq_true in Hg.
  exists data, d, st, rows. split_and!; [done..|].
  apply (polar_header_without_g_or_h_aborts_run Reference.py_int Reference.decimal
           Reference.py_float Reference.py_round Reference.to_csv Reference.read_csv
           Reference.float_str IoFine Sample.inp_no_g data d st rows
           Hdata Hdoc Hloop Hrows).
  by left.
Defined.

(** The sample run writes its log. *)
Lemma assembled_run_writes_the_log_witness :
  ∃ p, prepare' Sample.inp = Ok p ∧
    list_index products_line (lines Sample.inp) = Some 11%nat ∧
    status (run' IoFine Sample.inp) = Ok () ∧
    log_file (run' IoFine Sample.inp) = Some (log_text (log_lines (state p))) ∧
    is_Some (output_file (run' IoFine Sample.inp)) ∧
    (console (run' IoFine Sample.inp) = [Done; LogSaved] ∨
     ∃ e, console (run' IoFine Sample.inp) = [PostCleanupError e; Done; LogSaved]).
Proof.
  destruct (prepare' Sample.inp) as [p|e] eqn:Hp; [|did_not_raise Hp].
  assert (list_index products_line (lines Sample.inp) = Some 11%nat) as Hi by run_it.
  exists p. split; [done|]. split; [done|].
  apply (assembled_run_writes_the_log Reference.py_int Reference.decimal
           Reference.py_float Reference.py_round Reference.to_csv Reference.read_csv
           Reference.float_str IoFine Sample.inp p 11 Hp Hi).
  discriminate.
Defined.

(** The cleanup pass on the assembled sample file: the polarization marker
    is its eighth line, the Products line its thirteenth. *)
Lemma cleanup_keeps_the_rest_witness :
  cleanup_pass' IoFine Sample.assembled = (Sample.cleaned_once, Cleaned) ∧
  list_index polar_line (readlines Sample.assembled) = Some 7%nat ∧
  list_index products_line (readlines Sample.assembled) = Some 12%nat ∧
  ∃ header old polar_df kept,
    readlines Sample.assembled !! (7 + 1)%nat = Some header ∧
    translate_newlines Sample.assembled =
      concat_lines (take (7 + 2) (readlines Sample.assembled)) ++ old ++
      concat_lines (drop 12 (readlines Sample.assembled)) ∧
    Reference.read_csv (header ++ old) = Ok polar_df ∧
    cleanup_filter' polar_df = Ok kept ∧
    Sample.cleaned_once =
      concat_lines (take (7 + 2) (readlines Sample.assembled)) ++
      (Reference.to_csv
         ((λ row : list (value Reference.decimal),
             fillna_str Reference.decimal Reference.float_str <$> row) <$> kept) ++ nl) ++
      concat_lines (drop 12 (readlines Sample.assembled)).
Proof.
  assert (cleanup_pass' IoFine Sample.assembled = (Sample.cleaned_once, Cleaned))
    as Hclean by run_it.
  assert (list_index polar_line (readlines Sample.assembled) = Some 7%nat) as Hps by run_it.
  assert (list_index products_line (readlines Sample.assembled) = Some 12%nat)
    as Hpi by run_it.
  split; [done|]. split; [done|]. split; [done|].
  apply (cleanup_keeps_the_rest Reference.decimal Reference.to_csv Reference.read_csv
           Reference.float_str IoFine Sample.assembled Sample.cleaned_once 7 12
           Hclean Hps Hpi).
  lia.
Defined.

(** The file assembled for the sample run has its markers. *)
Lemma cleanup_finds_its_markers_witness :
  ∃ p content,
    prepare' Sample.inp = Ok p ∧
    assemble' (lines Sample.inp) (hoi_start (doc p)) (final_columns p)
      (polar_columns (doc p)) (updated_hoi_df p) (polar_clean p) = (content, Ok ()) ∧
    ∃ ps pi header,
      index_of polar_line (readlines content) = Ok ps ∧
      index_of products_line (readlines content) = Ok pi ∧
      list_getitem (readlines content) (ps + 1) = Ok header.
Proof.
  destruct (prepare' Sample.inp) as [p|e] eqn:Hp; [|did_not_raise Hp].
  destruct (assemble' (lines Sample.inp) (hoi_start (doc p)) (final_columns p)
      (polar_columns (doc p)) (updated_hoi_df p) (polar_clean p)) as [content r] eqn:Hasm.
  assert (r = Ok ()) as ->.
  { unfold assemble in Hasm. simpl in Hasm. injection Hasm as _ <-. reflexivity. }
  exists p, content. split; [done|]. split; [done|].
  apply (cleanup_finds_its_markers Reference.to_csv (lines Sample.inp)
           (hoi_start (doc p)) (final_columns p) (polar_columns (doc p))
           (updated_hoi_df p) (polar_clean p) content Hasm).
Defined.

(** The two polarization rows of the sample run have different channels. *)
Lemma polarization_channels_distinct_witness :
  ∃ p, prepare' Sample.inp = Ok p ∧
    polar_columns (doc p) !! 0%nat = Some "channel_id" ∧
    NoDup ((λ row : list cell, default NA (row !! 0%nat)) <$> polar_clean p).
Proof.
  destruct (prepare' Sample.inp) as [p|e] eqn:Hp; [|did_not_raise Hp].
  assert (polar_columns (doc p) !! 0%nat = Some "channel_id") as Hj by from_run Hp.
  exists p. split; [done|]. split; [done|].
  apply (polarization_channels_distinct Reference.py_int Reference.decimal
           Reference.py_float Reference.py_round Sample.inp p 0 Hp Hj).
Defined.

(** A directory before and after a run: the same report and the same
    configuration file are detected. *)
Lemma outputs_are_not_inputs_witness :
  autodetect Sample.directory =
    Detected "report.pdf" "LidarConfiguration_RALI.csv"
      "NEW_LidarConfiguration_RALI.csv" "CSV_match.log" ∧
  autodetect Sample.directory_after =
    Detected "report.pdf" "LidarConfiguration_RALI.csv"
      "NEW_LidarConfiguration_RALI.csv" "CSV_match.log".
Proof.
  assert (autodetect Sample.directory =
            Detected "report.pdf" "LidarConfiguration_RALI.csv"
              "NEW_LidarConfiguration_RALI.csv" "CSV_match.log") as Hdetect by run_it.
  split; [done|].
  apply (outputs_are_not_inputs Sample.directory Sample.directory_after _ _ _ _ Hdetect).
  run_it.
Defined.

(** Where the channel rows of the sample file come from. *)
Lemma channel_rows_come_from_witness :
  ∃ d, read_document (lines Sample.inp) = Ok d ∧
    (1 ≤ polar_start d)%nat ∧
    (Sample.row_300 ∈ records (original_hoi_df d) ↔
     ∃ (k : nat) line,
       (hoi_start d + 2 ≤ k)%nat ∧ (k + 1 < polar_start d)%nat ∧
       lines Sample.inp !! k = Some line ∧ strip line ≠ "" ∧
       Sample.row_300 = py_dict (zip (hoi_columns d) (Str <$> split "," (strip line)))).
Proof.
  destruct (read_document (lines Sample.inp)) as [d|e] eqn:Hdoc; [|did_not_raise Hdoc].
  assert (1 ≤ polar_start d)%nat as Hps
    by (apply (bool_decide_eq_true_1 _); from_run Hdoc).
  exists d. split; [done|]. split; [done|].
  apply (channel_rows_come_from (lines Sample.inp) d Sample.row_300 Hdoc Hps).
Defined.

